(** * kms-reporter: the encryption-status analysis, embedded and verified

    A shallow embedding of the Go packages [pkg/utils] (ParseEtcdObject),
    [pkg/reader] (analyzeSecretEncryption, getLatestProviderSeq) and
    [pkg/recorder] (formatSecretLists, Record, createConfigMap,
    updateConfigMap), together with the parts of Go's standard library
    they call.

    Conventions:
    - a Go [string] is a [string] (a sequence of bytes);
    - a Go [int] is a [Z]; the program runs on amd64, so [int] has 64 bits,
      and the only place where the width matters is [strconv.Atoi];
    - a Go [error] is a value of the inductive type [error], [nil] being
      [None] of [option error];
    - a Go [map[string]string] is an [option (gmap string string)], [None]
      being the nil map;
    - functions with several results return tuples, in the source's order. *)

From Stdlib Require Import ZArith Ascii String List Bool Lia.
From stdpp Require Import base option list gmap strings.

Local Open Scope string_scope.
Local Open Scope Z_scope.

(** ** Go's standard library *)

Module GoStrings.

(** [strings.HasPrefix(s, prefix)]. *)
Fixpoint HasPrefix (s prefix : string) {struct prefix} : bool :=
  match prefix with
  | EmptyString => true
  | String p prefix' =>
      match s with
      | EmptyString => false
      | String c s' => Ascii.eqb c p && HasPrefix s' prefix'
      end
  end.

(** [s[n:]]. *)
Fixpoint drop (n : nat) (s : string) : string :=
  match n, s with
  | O, _ => s
  | S _, EmptyString => EmptyString
  | S n', String _ s' => drop n' s'
  end.

(** [strings.TrimPrefix(s, prefix)]: [s] without the leading [prefix];
    [s] unchanged when it does not start with [prefix]. *)
Definition TrimPrefix (s prefix : string) : string :=
  if HasPrefix s prefix then drop (String.length prefix) s else s.

(** [strings.Split(s, sep)] for a separator of one byte, which is how the
    program calls it ("/" and ":"). The result is never empty: a string
    with n separators gives n+1 fields. *)
Fixpoint Split (s : string) (sep : ascii) : list string :=
  match s with
  | EmptyString => [EmptyString]
  | String c s' =>
      if Ascii.eqb c sep then EmptyString :: Split s' sep
      else match Split s' sep with
           | field :: fields => String c field :: fields
           | [] => [String c EmptyString]
           end
  end.

(** [strings.Join(elems, sep)]. *)
Fixpoint Join (elems : list string) (sep : string) : string :=
  match elems with
  | [] => EmptyString
  | [e] => e
  | e :: rest => e +:+ sep +:+ Join rest sep
  end.

(** [parts[i]] on a slice of strings. The program only indexes after a
    length check, so the default is never returned. *)
Definition index (parts : list string) (i : nat) : string :=
  nth i parts EmptyString.

End GoStrings.

Module Strconv.

(** The two causes of a [*strconv.NumError]. *)
Inductive numErr := ErrSyntax | ErrRange.

Definition isDigit (c : ascii) : bool :=
  (48 <=? nat_of_ascii c)%nat && (nat_of_ascii c <=? 57)%nat.

Definition digitVal (c : ascii) : Z := Z.of_nat (nat_of_ascii c) - 48.

Definition maxUint64 : Z := 2 ^ 64 - 1.

(** The loop of [strconv.ParseUint(s, 10, 64)] from accumulator [n]:
    a byte that is not a digit is a syntax error; a value above
    [maxUint64] is a range error, reported as soon as it is reached. *)
Fixpoint parseUintLoop (s : string) (n : Z) : Z * option numErr :=
  match s with
  | EmptyString => (n, None)
  | String c s' =>
      if isDigit c then
        let n1 := n * 10 + digitVal c in
        if maxUint64 <? n1 then (maxUint64, Some ErrRange)
        else parseUintLoop s' n1
      else (0, Some ErrSyntax)
  end.

Definition ParseUint (s : string) : Z * option numErr :=
  match s with
  | EmptyString => (0, Some ErrSyntax)
  | _ => parseUintLoop s 0
  end.

(** [strconv.ParseInt(s, 10, 0)] with a 64-bit [int]: an optional sign,
    then [ParseUint], then the check against the cutoff [2^63]. *)
Definition ParseInt (s : string) : Z * option numErr :=
  match s with
  | EmptyString => (0, Some ErrSyntax)
  | String c s' =>
      let neg := Ascii.eqb c "-" in
      let body := if Ascii.eqb c "+" || neg then s' else s in
      let '(un, err) := ParseUint body in
      match err with
      | Some ErrSyntax => (0, Some ErrSyntax)
      | _ =>
          let cutoff := 2 ^ 63 in
          if negb neg && (cutoff <=? un) then (cutoff - 1, Some ErrRange)
          else if neg && (cutoff <? un) then (- cutoff, Some ErrRange)
          else (if neg then - un else un, None)
      end
  end.

(** [strconv.Atoi(s)], which is [ParseInt(s, 10, 0)] converted to [int]
    (its fast path for short strings computes the same result). *)
Definition Atoi (s : string) : Z * option numErr := ParseInt s.

(** For reference, decimal notation read without any bound: the value of
    a string of digits continuing the number [n], then of a non-empty
    string of digits, then of one with an optional sign. [Atoi] is
    compared with [signedDecimal] in [Atoi_ok_iff]. *)
Fixpoint decimalFrom (s : string) (n : Z) : option Z :=
  match s with
  | EmptyString => Some n
  | String c s' =>
      if isDigit c then decimalFrom s' (n * 10 + digitVal c) else None
  end.

Definition unsignedDecimal (s : string) : option Z :=
  match s with
  | EmptyString => None
  | _ => decimalFrom s 0
  end.

Definition signedDecimal (s : string) : option Z :=
  match s with
  | EmptyString => None
  | String c s' =>
      if Ascii.eqb c "+" then unsignedDecimal s'
      else if Ascii.eqb c "-" then Z.opp <$> unsignedDecimal s'
      else unsignedDecimal s
  end.

Definition inInt64 (n : Z) : bool := (- 2 ^ 63 <=? n) && (n <=? 2 ^ 63 - 1).

End Strconv.

(** ** Errors *)

(** The [error] values the program builds. [Errorf message] is
    [fmt.Errorf(message)] for a message without verbs; [Errorf_s format arg] is
    [fmt.Errorf(format, arg)] for a format with one [%s]; [Errorf_w format
    err] is [fmt.Errorf(format, err)] for a format that wraps [err] with
    [%w]; [NumError fn num err] is the [*strconv.NumError] of [Atoi];
    [StatusError notFound] is an error of the Kubernetes API client, for
    which [apierrors.IsNotFound] answers [notFound]. *)
Inductive error : Type :=
| Errorf (message : string)
| Errorf_s (format : string) (arg : string)
| Errorf_w (format : string) (err : error)
| NumError (fn : string) (num : string) (err : Strconv.numErr)
| StatusError (notFound : bool).

(** ** pkg/utils *)

Module Utils.
Import GoStrings.

Definition etcdObjectValueKmsEncryptedPrefix : string := "k8s:enc:kms:".

(** [ParseEtcdObject(k, v, kmsProviderName)], returning
    [(encrypted, secret, seq, err)]. *)
Definition ParseEtcdObject (k v kmsProviderName : string)
  : bool * string * Z * option error :=
  let encrypted := HasPrefix v etcdObjectValueKmsEncryptedPrefix in
  let keyParts := Split k "/" in
  if (length keyParts <? 5)%nat then
    (encrypted, "", 0, Some (Errorf_s "invalid key format: %s" k))
  else
    let secret := index keyParts 3 +:+ "/" +:+ index keyParts 4 in
    if encrypted then
      let valueParts := Split v ":" in
      if (length valueParts <? 6)%nat then
        (encrypted, secret, 0,
         Some (Errorf_s "invalid encrypted value format: %s" v))
      else
        let seqStr := TrimPrefix (index valueParts 4) kmsProviderName in
        match Strconv.Atoi seqStr with
        | (_, Some e) =>
            (encrypted, secret, 0,
             Some (Errorf_w "failed to convert seq to int: %w"
                     (NumError "Atoi" seqStr e)))
        | (seqInt, None) => (encrypted, secret, seqInt, None)
        end
    else (encrypted, secret, 0, None).

(** The secret that [ParseEtcdObject] reads from a key of five segments
    or more: its [fmt.Sprintf("%s/%s", keyParts[3], keyParts[4])]. *)
Definition keySecret (k : string) : string :=
  index (Split k "/") 3 +:+ "/" +:+ index (Split k "/") 4.

(** The four results of [ParseEtcdObject], by name. *)
Definition encryptedOf (r : bool * string * Z * option error) : bool := r.1.1.1.
Definition secretOf (r : bool * string * Z * option error) : string := r.1.1.2.
Definition seqOf (r : bool * string * Z * option error) : Z := r.1.2.
Definition errOf (r : bool * string * Z * option error) : option error := r.2.

End Utils.

(** ** The Kubernetes API client

    [kubernetes.Interface] is an external collaborator. It is modelled the
    way the fake clientset of the repository's tests behaves: an object
    tracker keyed by namespace and name, in front of which a reactor may be
    installed per verb to make the call fail. *)

Module K8s.

(** [v1.ConfigMap], with the metadata the program sets and its [Data]. *)
Record ConfigMap := {
  Name : string;
  Namespace : string;
  Data : option (gmap string string);
}.

Record Cluster := {
  tracker : gmap (string * string) ConfigMap;
  getReactor : option error;
  createReactor : option error;
  updateReactor : option error;
}.

Definition withTracker (c : Cluster) (t : gmap (string * string) ConfigMap)
  : Cluster :=
  {| tracker := t; getReactor := getReactor c;
     createReactor := createReactor c; updateReactor := updateReactor c |}.

(** Every object of the tracker is stored under its own namespace and
    name, as the API server keeps them. *)
Definition wellFormed (c : Cluster) : Prop :=
  forall namespace name cm,
    tracker c !! (namespace, name) = Some cm ->
    Namespace cm = namespace /\ Name cm = name.

(** [apierrors.IsNotFound(err)]. *)
Definition IsNotFound (err : error) : bool :=
  match err with
  | StatusError notFound => notFound
  | _ => false
  end.

(** [clientset.CoreV1().ConfigMaps(namespace).Get(ctx, name, ...)]:
    the object ([inl]) or the error ([inr]). *)
Definition Get (c : Cluster) (namespace name : string)
  : ConfigMap + error :=
  match getReactor c with
  | Some err => inr err
  | None =>
      match tracker c !! (namespace, name) with
      | Some cm => inl cm
      | None => inr (StatusError true)
      end
  end.

(** [clientset.CoreV1().ConfigMaps(namespace).Create(ctx, cm, ...)]. *)
Definition Create (c : Cluster) (namespace : string) (cm : ConfigMap)
  : Cluster * option error :=
  match createReactor c with
  | Some err => (c, Some err)
  | None =>
      match tracker c !! (namespace, Name cm) with
      | Some _ => (c, Some (StatusError false))
      | None => (withTracker c (<[(namespace, Name cm) := cm]> (tracker c)), None)
      end
  end.

(** [clientset.CoreV1().ConfigMaps(namespace).Update(ctx, cm, ...)]. *)
Definition Update (c : Cluster) (namespace : string) (cm : ConfigMap)
  : Cluster * option error :=
  match updateReactor c with
  | Some err => (c, Some err)
  | None =>
      match tracker c !! (namespace, Name cm) with
      | Some _ => (withTracker c (<[(namespace, Name cm) := cm]> (tracker c)), None)
      | None => (c, Some (StatusError true))
      end
  end.

(** [m[k]] read on a Go map: a nil map reads as an empty one. *)
Definition mapLookup (m : option (gmap string string)) (k : string)
  : option string :=
  match m with
  | Some d => d !! k
  | None => None
  end.

End K8s.

(** How a call ends: it returns its [error] result, or it panics. *)
Inductive outcome :=
| Returned (err : option error)
| Panicked.

(** ** pkg/recorder *)

Module Recorder.
Import GoStrings K8s.

Definition kmsReporterConfigMapName : string := "kms-reporter".
Definition allSecretsPattern : string := "ALL_SECRETS".
Definition encryptedSecretsKey : string := "ENCRYPTED".
Definition unencryptedSecretsKey : string := "UNENCRYPTED".
Definition encryptedByLatestProviderKey : string := "ENCRYPTED_BY_LATEST_SEQ".

(** [fmt.Sprintf("%t", b)]. *)
Definition Sprintf_t (b : bool) : string := if b then "true" else "false".

Definition formatSecretLists (encryptedSecrets unencryptedSecrets : list string)
  : string * string :=
  let hasEncrypted := (0 <? length encryptedSecrets)%nat in
  let hasUnencrypted := (0 <? length unencryptedSecrets)%nat in
  if hasEncrypted && hasUnencrypted then
    (Join encryptedSecrets ",", Join unencryptedSecrets ",")
  else if negb hasEncrypted && hasUnencrypted then
    ("", allSecretsPattern)
  else if hasEncrypted && negb hasUnencrypted then
    (allSecretsPattern, "")
  else ("", "").

Definition createConfigMap (c : Cluster) (namespace encryptedValue
    unencryptedValue : string) (allSecretsEncrypted
    allSecretsUseLatestProvider : bool) : Cluster * outcome :=
  let data : gmap string string :=
    <[unencryptedSecretsKey := unencryptedValue]>
      (<[encryptedSecretsKey := encryptedValue]> ∅) in
  let data :=
    if allSecretsEncrypted then
      <[encryptedByLatestProviderKey := Sprintf_t allSecretsUseLatestProvider]> data
    else data in
  let configMap :=
    {| Name := kmsReporterConfigMapName; Namespace := namespace;
       Data := Some data |} in
  match Create c namespace configMap with
  | (c', Some err) =>
      (c', Returned (Some (Errorf_w "failed to create ConfigMap: %w" err)))
  | (c', None) => (c', Returned None)
  end.

(** Writing into a nil [Data] map panics, as any write to a nil Go map. *)
Definition updateConfigMap (c : Cluster) (configMap : ConfigMap)
    (encryptedValue unencryptedValue : string) (allSecretsEncrypted
    allSecretsUseLatestProvider : bool) : Cluster * outcome :=
  match Data configMap with
  | None => (c, Panicked)
  | Some data =>
      let data := <[encryptedSecretsKey := encryptedValue]> data in
      let data := <[unencryptedSecretsKey := unencryptedValue]> data in
      let data :=
        if allSecretsEncrypted then
          <[encryptedByLatestProviderKey := Sprintf_t allSecretsUseLatestProvider]> data
        else delete encryptedByLatestProviderKey data in
      let configMap :=
        {| Name := Name configMap; Namespace := Namespace configMap;
           Data := Some data |} in
      match Update c (Namespace configMap) configMap with
      | (c', Some err) =>
          (c', Returned (Some (Errorf_w "failed to update ConfigMap: %w" err)))
      | (c', None) => (c', Returned None)
      end
  end.

(** The method [Record] of [RecorderOperation] ([Record] alone is a keyword
    here, hence the underscore). *)
Definition Record_ (c : Cluster) (namespace : string) (encryptedSecrets
    unencryptedSecrets : list string) (allSecretsUseLatestProvider : bool)
  : Cluster * outcome :=
  let allSecretsEncrypted := (length unencryptedSecrets =? 0)%nat in
  let '(encryptedValue, unencryptedValue) :=
    formatSecretLists encryptedSecrets unencryptedSecrets in
  match Get c namespace kmsReporterConfigMapName with
  | inr err =>
      if negb (IsNotFound err) then
        (c, Returned (Some (Errorf_w "failed to get ConfigMap: %w" err)))
      else
        createConfigMap c namespace encryptedValue unencryptedValue
          allSecretsEncrypted allSecretsUseLatestProvider
  | inl configMap =>
      updateConfigMap c configMap encryptedValue unencryptedValue
        allSecretsEncrypted allSecretsUseLatestProvider
  end.

(** What [createConfigMap] and [updateConfigMap] do with the key
    ENCRYPTED_BY_LATEST_SEQ of the data they are about to send. *)
Definition setLatestProviderKey (allSecretsEncrypted
    allSecretsUseLatestProvider : bool) (data : gmap string string)
  : gmap string string :=
  if allSecretsEncrypted then
    <[encryptedByLatestProviderKey := Sprintf_t allSecretsUseLatestProvider]> data
  else delete encryptedByLatestProviderKey data.

(** The data of the stored report in [namespace], when there is one. *)
Definition storedData (c : Cluster) (namespace : string)
  : option (gmap string string) :=
  match tracker c !! (namespace, kmsReporterConfigMapName) with
  | Some cm => Data cm
  | None => None
  end.

End Recorder.

(** ** The regular expression of the reader

    [getLatestProviderSeq] compiles [kmsProviderName + `(\d+)`] and calls
    [FindStringSubmatch] on a provider's name. The model covers a
    [kmsProviderName] that is a literal of the regexp syntax ([literal]):
    ASCII bytes none of which is a metacharacter. The default
    "kmsprovider" is one. For such a name the expression is the name
    followed by one capture group of one or more ASCII digits, and it is
    not anchored: the search finds the leftmost occurrence of the name that
    is followed by a digit, anywhere in the text, and the group takes the
    longest run of digits there. *)

Module Regexp.
Import GoStrings.

(** The bytes that [regexp.QuoteMeta] escapes. *)
Definition metacharacters : string := "\.+*?()|[]{}^$".

Fixpoint contains (s : string) (c : ascii) : bool :=
  match s with
  | EmptyString => false
  | String d s' => Ascii.eqb c d || contains s' c
  end.

Fixpoint allBytes (f : ascii -> bool) (s : string) : bool :=
  match s with
  | EmptyString => true
  | String c s' => f c && allBytes f s'
  end.

Definition literal (name : string) : bool :=
  allBytes (fun c => (nat_of_ascii c <? 128)%nat && negb (contains metacharacters c))
    name.

(** The longest run of digits at the start of [s]: what [\d+] takes. *)
Fixpoint digitRun (s : string) : string :=
  match s with
  | EmptyString => EmptyString
  | String c s' =>
      if Strconv.isDigit c then String c (digitRun s') else EmptyString
  end.

(** A match that starts at the first byte of [s]: the digits of group 1. *)
Definition matchAt (name s : string) : option string :=
  if HasPrefix s name then
    match digitRun (drop (String.length name) s) with
    | EmptyString => None
    | digits => Some digits
    end
  else None.

(** [regexp.MustCompile(name + `(\d+)`).FindStringSubmatch(s)]: nil when
    there is no match, else the matched text and the text of group 1. *)
Fixpoint FindStringSubmatch (name s : string) : list string :=
  match matchAt name s with
  | Some digits => [name +:+ digits; digits]
  | None =>
      match s with
      | EmptyString => []
      | String _ s' => FindStringSubmatch name s'
      end
  end.

End Regexp.

(** ** pkg/reader *)

Module Reader.
Import GoStrings.

Definition secretEtcdKey : string := "/registry/secrets".
Definition encryptionProviderConfigName : string := "encryption-provider-config".
Definition encryptionConfigYAMLKey : string := "encryption-provider-config.yaml".
Definition identityProviderSeq : Z := -1.

(** The configuration structure. Two field names of the source occur in
    two structs: [APIVersion] and [Resources] keep their names in
    [EncryptionConfiguration]; they are [KMSAPIVersion] in [KMSProvider]
    and [ResourceNames] in [Resource]. *)
Record KMSProvider := {
  KMSAPIVersion : string;
  Endpoint : string;
  Name : string;
}.

Record Provider := {
  KMS : option KMSProvider;
  Identity : option unit;
}.

Record Resource := {
  Providers : list Provider;
  ResourceNames : list string;
}.

Record EncryptionConfiguration := {
  APIVersion : string;
  Kind : string;
  Resources : list Resource;
}.

Record EncryptionAnalysisResult := {
  EncryptedSecrets : list string;
  UnencryptedSecrets : list string;
  AllSecretsUseLatestProvider : bool;
}.

(** [mvccpb.KeyValue], with the two fields the program reads. *)
Record KeyValue := {
  Key : string;
  Value : string;
}.

(** [etcd.EtcdClientOperator]: what [Get] with a key prefix answers, the
    [Kvs] of the response ([inl]) or an error ([inr]). *)
Record EtcdClientOperator := {
  etcdGet : string -> list KeyValue + error;
}.

Record ReadOperation := {
  etcdCli : option EtcdClientOperator;
  clientset : K8s.Cluster;
  kmsProviderName : string;
}.

(** The body of the loop of [analyzeSecretEncryption] for one [kv]. *)
Definition analyzeRecord (o : ReadOperation) (latestProviderSeq : Z)
    (result : EncryptionAnalysisResult) (kv : KeyValue)
  : EncryptionAnalysisResult :=
  let key := Key kv in
  let value := Value kv in
  match Utils.ParseEtcdObject key value (kmsProviderName o) with
  | (_, _, _, Some _) => result
  | (encrypted, parsedSecret, providerSeq, None) =>
      let allLatest :=
        if negb (providerSeq =? latestProviderSeq) then false
        else AllSecretsUseLatestProvider result in
      if encrypted then
        {| EncryptedSecrets := EncryptedSecrets result ++ [parsedSecret];
           UnencryptedSecrets := UnencryptedSecrets result;
           AllSecretsUseLatestProvider := allLatest |}
      else
        {| EncryptedSecrets := EncryptedSecrets result;
           UnencryptedSecrets := UnencryptedSecrets result ++ [parsedSecret];
           AllSecretsUseLatestProvider := allLatest |}
  end.

(** The loop of [analyzeSecretEncryption] from an intermediate [result]. *)
Definition analyzeFrom (o : ReadOperation) (latestProviderSeq : Z)
    (result : EncryptionAnalysisResult) (kvs : list KeyValue)
  : EncryptionAnalysisResult :=
  fold_left (analyzeRecord o latestProviderSeq) kvs result.

Definition analyzeSecretEncryption (o : ReadOperation) (kvs : list KeyValue)
    (latestProviderSeq : Z) : EncryptionAnalysisResult :=
  analyzeFrom o latestProviderSeq
    {| EncryptedSecrets := []; UnencryptedSecrets := [];
       AllSecretsUseLatestProvider := true |}
    kvs.

(** The inner loop of [getLatestProviderSeq] over the providers of one
    resource: [Some seq] when the loop returns [seq], [None] when it runs
    to its end. *)
Fixpoint scanProviders (name : string) (providers : list Provider)
  : option Z :=
  match providers with
  | [] => None
  | provider :: rest =>
      match KMS provider with
      | Some kms =>
          let matches := Regexp.FindStringSubmatch name (Name kms) in
          if (length matches =? 2)%nat then
            match Strconv.Atoi (index matches 1) with
            | (_, Some _) => scanProviders name rest
            | (providerSeq, None) => Some providerSeq
            end
          else scanProviders name rest
      | None => scanProviders name rest
      end
  end.

(** What the body of the inner loop does with one provider: [Some seq]
    when it returns [seq], [None] when the loop goes on to the next
    provider. [scanProviders] is compared with it in
    [scanProviders_cons]. *)
Definition providerSeq (name : string) (provider : Provider) : option Z :=
  match KMS provider with
  | Some kms =>
      match Regexp.FindStringSubmatch name (Name kms) with
      | [_; digits] =>
          match Strconv.Atoi digits with
          | (seq, None) => Some seq
          | (_, Some _) => None
          end
      | _ => None
      end
  | None => None
  end.

(** The outer loop, over the resources. *)
Fixpoint scanResources (name : string) (resources : list Resource)
  : option Z :=
  match resources with
  | [] => None
  | resource :: rest =>
      match scanProviders name (Providers resource) with
      | Some providerSeq => Some providerSeq
      | None => scanResources name rest
      end
  end.

Section WithYAML.

(** [yaml.Unmarshal] of sigs.k8s.io/yaml into an
    [EncryptionConfiguration]: an external library, taken as given. *)
Variable Unmarshal : string -> EncryptionConfiguration + error.

(** The two loops of [getLatestProviderSeq] on the parsed
    configuration, with the return that follows them. *)
Definition latestProviderSeqOf (o : ReadOperation)
    (encryptionConfig : EncryptionConfiguration) : Z :=
  match scanResources (kmsProviderName o) (Resources encryptionConfig) with
  | Some providerSeq => providerSeq
  | None => identityProviderSeq
  end.

(** [getLatestProviderSeq], for a provider name that is a literal of
    the regexp syntax ([Regexp.literal]). For another name the program
    compiles the name as a regular expression, and [regexp.MustCompile]
    panics when it is not one; neither is modelled, so what is proved of
    the seq resolved here holds of the program for literal names. *)
Definition getLatestProviderSeq (o : ReadOperation) (namespace : string)
  : Z * option error :=
  match K8s.Get (clientset o) namespace encryptionProviderConfigName with
  | inr err =>
      (0, Some (Errorf_w "failed to get encryption-provider-config ConfigMap: %w" err))
  | inl cm =>
      match K8s.mapLookup (K8s.Data cm) encryptionConfigYAMLKey with
      | None =>
          (0, Some (Errorf_s "%s not found in ConfigMap data" encryptionConfigYAMLKey))
      | Some encryptionConfigYAML =>
          match Unmarshal encryptionConfigYAML with
          | inr err =>
              (0, Some (Errorf_w "failed to unmarshal encryption configuration: %w" err))
          | inl encryptionConfig =>
              (latestProviderSeqOf o encryptionConfig, None)
          end
      end
  end.

(** [Read], on the cluster [recorder] that the recorder writes to. *)
Definition Read (o : ReadOperation) (recorder : K8s.Cluster)
    (namespace : string) : K8s.Cluster * outcome :=
  match etcdCli o with
  | None => (recorder, Returned (Some (Errorf "etcd client is nil")))
  | Some cli =>
      match etcdGet cli secretEtcdKey with
      | inr err =>
          (recorder, Returned (Some (Errorf_w "failed to get key from etcd: %w" err)))
      | inl kvs =>
          if (length kvs =? 0)%nat then (recorder, Returned None)
          else
            match getLatestProviderSeq o namespace with
            | (_, Some err) =>
                (recorder,
                 Returned (Some (Errorf_w "failed to get latest provider seq: %w" err)))
            | (latestProviderSeq, None) =>
                let analysisResult :=
                  analyzeSecretEncryption o kvs latestProviderSeq in
                match Recorder.Record_ recorder namespace
                        (EncryptedSecrets analysisResult)
                        (UnencryptedSecrets analysisResult)
                        (AllSecretsUseLatestProvider analysisResult) with
                | (recorder', Returned (Some err)) =>
                    (recorder',
                     Returned (Some (Errorf_w
                       "failed to store secret encryption status in recorder: %w" err)))
                | (recorder', out) => (recorder', out)
                end
            end
      end
  end.

End WithYAML.

End Reader.

(** ** Fixtures

    The objects of the repository's tests, used by the examples below: a
    cluster without reactors, the ConfigMap of the encryption
    configuration, providers and configurations, and a [ReadOperation]
    with the default provider name. The YAML text is the string "yaml",
    which the examples pair with an [Unmarshal] that answers the
    configuration at hand. *)

Module Fixtures.
Import Reader.

Definition clusterOf (t : gmap (string * string) K8s.ConfigMap) : K8s.Cluster :=
  {| K8s.tracker := t; K8s.getReactor := None; K8s.createReactor := None;
     K8s.updateReactor := None |}.

Definition emptyCluster : K8s.Cluster := clusterOf ∅.

Definition configCluster : K8s.Cluster :=
  clusterOf
    {[ ("kube-system", "encryption-provider-config") :=
         {| K8s.Name := "encryption-provider-config";
            K8s.Namespace := "kube-system";
            K8s.Data := Some {[ "encryption-provider-config.yaml" := "yaml" ]} |} ]}.

Definition kmsOf (name : string) : Provider :=
  {| KMS := Some {| KMSAPIVersion := "v2"; Endpoint := "unix:///tmp/kms.sock";
                    Name := name |};
     Identity := None |}.

Definition identity : Provider := {| KMS := None; Identity := Some () |}.

Definition configOf (providers : list Provider) : EncryptionConfiguration :=
  {| APIVersion := "apiserver.config.k8s.io/v1";
     Kind := "EncryptionConfiguration";
     Resources := [{| Providers := providers; ResourceNames := ["secrets"] |}] |}.

Definition etcdOf (kvs : list KeyValue) : EtcdClientOperator :=
  {| etcdGet := fun _ => inl kvs |}.

Definition readOp (cli : option EtcdClientOperator) : ReadOperation :=
  {| etcdCli := cli; clientset := configCluster;
     kmsProviderName := "kmsprovider" |}.

End Fixtures.

(** ** Views of the analysis

    What one record contributes to each list of [analyzeSecretEncryption],
    read off the two branches at the end of its loop body, and the test
    that a string is free of a byte. They serve to state properties; the
    program does not have them. *)

Module Views.
Import Reader.

Definition encryptedSecretOf (o : ReadOperation) (kv : KeyValue)
  : option string :=
  match Utils.ParseEtcdObject (Key kv) (Value kv) (kmsProviderName o) with
  | (true, secret, _, None) => Some secret
  | _ => None
  end.

Definition unencryptedSecretOf (o : ReadOperation) (kv : KeyValue)
  : option string :=
  match Utils.ParseEtcdObject (Key kv) (Value kv) (kmsProviderName o) with
  | (false, secret, _, None) => Some secret
  | _ => None
  end.

Definition free (c : ascii) (s : string) : bool := negb (Regexp.contains s c).

(** In the words of the specification of the scan: the text has nowhere
    the provider name followed by a digit; and a provider that the scan
    is to pass over, because it is not a KMS provider, or because its name
    has nowhere the provider name followed by a digit, or because its name
    is the provider name followed by digits, and nothing else, of a
    number above the largest int. [getLatestProviderSeq] is compared with
    them in [getLatestProviderSeq_first_named]. *)
Definition noOccurrence (name text : string) : Prop :=
  forall pre d rest,
    Strconv.isDigit d = true -> text <> pre +:+ name +:+ String d rest.

Definition passedOver (name : string) (p : Provider) : Prop :=
  KMS p = None \/
  exists kms,
    KMS p = Some kms /\
    (noOccurrence name (Name kms) \/
     exists digits N,
       Name kms = name +:+ digits /\ digits <> EmptyString /\
       Regexp.allBytes Strconv.isDigit digits = true /\
       Strconv.unsignedDecimal digits = Some N /\ 2 ^ 63 - 1 < N).

(** The data that [Record] sends to the cluster, from the data that the
    report had before: the two keys of the lists set, then the key
    ENCRYPTED_BY_LATEST_SEQ set or deleted. *)
Definition recorded (encryptedSecrets unencryptedSecrets : list string)
    (allSecretsUseLatestProvider : bool) (previous : gmap string string)
  : gmap string string :=
  Recorder.setLatestProviderKey (length unencryptedSecrets =? 0)%nat
    allSecretsUseLatestProvider
    (<[Recorder.unencryptedSecretsKey :=
         (Recorder.formatSecretLists encryptedSecrets unencryptedSecrets).2]>
       (<[Recorder.encryptedSecretsKey :=
            (Recorder.formatSecretLists encryptedSecrets unencryptedSecrets).1]>
          previous)).

(** Whether [ParseEtcdObject] accepts the record, and whether the record
    leaves the flag as it is: the two tests of the loop body. *)
Definition accepted (o : ReadOperation) (kv : KeyValue) : bool :=
  match Utils.ParseEtcdObject (Key kv) (Value kv) (kmsProviderName o) with
  | (_, _, _, None) => true
  | _ => false
  end.

Definition keepsFlag (o : ReadOperation) (latestProviderSeq : Z)
    (kv : KeyValue) : bool :=
  match Utils.ParseEtcdObject (Key kv) (Value kv) (kmsProviderName o) with
  | (_, _, seq, None) => seq =? latestProviderSeq
  | _ => true
  end.

End Views.

(** * Verification *)

(** ** Strings *)

Section StringFacts.
Import GoStrings.

Lemma HasPrefix_app (p rest : string) : HasPrefix (p +:+ rest) p = true.
Proof.
  induction p as [|c p IH]; simpl; [done|].
  by rewrite Ascii.eqb_refl, IH.
Qed.

Lemma HasPrefix_inv (s p : string) :
  HasPrefix s p = true -> exists rest, s = p +:+ rest.
Proof.
  revert s. induction p as [|c p IH]; intros s H; simpl in *.
  - by exists s.
  - destruct s as [|d s]; [done|].
    apply andb_true_iff in H as [Hc Hp].
    apply Ascii.eqb_eq in Hc as ->.
    destruct (IH _ Hp) as [rest ->]. by exists rest.
Qed.

Lemma drop_app (p rest : string) : drop (String.length p) (p +:+ rest) = rest.
Proof.
  induction p as [|c p IH]; simpl.
  - reflexivity.
  - exact IH.
Qed.

(** [TrimPrefix] removes the prefix when there is one... *)
Lemma TrimPrefix_app (p rest : string) : TrimPrefix (p +:+ rest) p = rest.
Proof. unfold TrimPrefix. by rewrite HasPrefix_app, drop_app. Qed.

(** ... and returns its argument whole when there is none. *)
Lemma TrimPrefix_no_prefix (s p : string) :
  HasPrefix s p = false -> TrimPrefix s p = s.
Proof. unfold TrimPrefix. by intros ->. Qed.

Lemma Split_nonempty (s : string) (sep : ascii) : Split s sep <> [].
Proof.
  destruct s as [|c s]; simpl; [done|].
  destruct (Ascii.eqb c sep); [done|]. by destruct (Split s sep).
Qed.

End StringFacts.

(** ** strconv.Atoi against unbounded decimal notation *)

Section AtoiFacts.
Import Strconv.

Lemma digitVal_range (c : ascii) : isDigit c = true -> 0 <= digitVal c <= 9.
Proof.
  unfold isDigit, digitVal. intros H.
  apply andb_true_iff in H as [Hlo Hhi].
  apply Nat.leb_le in Hlo. apply Nat.leb_le in Hhi. lia.
Qed.

Lemma decimalFrom_ge (s : string) : forall n v,
  0 <= n -> decimalFrom s n = Some v -> n <= v.
Proof.
  induction s as [|c s IH]; simpl; intros n v Hn H.
  - injection H as <-. lia.
  - destruct (isDigit c) eqn:Hc; [|discriminate].
    pose proof (digitVal_range c Hc).
    apply IH in H; lia.
Qed.

Lemma parseUintLoop_decimal (s : string) : forall n,
  0 <= n <= maxUint64 ->
  match decimalFrom s n with
  | Some v =>
      parseUintLoop s n =
        if v <=? maxUint64 then (v, None) else (maxUint64, Some ErrRange)
  | None =>
      parseUintLoop s n = (0, Some ErrSyntax) \/
      parseUintLoop s n = (maxUint64, Some ErrRange)
  end.
Proof.
  induction s as [|c s IH]; simpl; intros n Hn.
  - destruct (Z.leb_spec n maxUint64); [done|lia].
  - destruct (isDigit c) eqn:Hc; [|by eauto].
    pose proof (digitVal_range c Hc) as Hd.
    destruct (Z.ltb_spec maxUint64 (n * 10 + digitVal c)) as [Hover|Hfit].
    + destruct (decimalFrom s (n * 10 + digitVal c)) as [v|] eqn:Hv; [|by eauto].
      apply decimalFrom_ge in Hv; [|lia].
      destruct (Z.leb_spec v maxUint64); [lia|done].
    + apply IH. lia.
Qed.

Lemma ParseUint_decimal (s : string) :
  match unsignedDecimal s with
  | Some v =>
      0 <= v /\
      ParseUint s =
        if v <=? maxUint64 then (v, None) else (maxUint64, Some ErrRange)
  | None =>
      ParseUint s = (0, Some ErrSyntax) \/
      ParseUint s = (maxUint64, Some ErrRange)
  end.
Proof.
  destruct s as [|c s]; [simpl; by eauto|].
  unfold unsignedDecimal, ParseUint.
  assert (Hz : 0 <= 0 <= maxUint64) by (unfold maxUint64; lia).
  pose proof (parseUintLoop_decimal (String c s) 0 Hz) as H.
  destruct (decimalFrom (String c s) 0) as [v|] eqn:Hv; [|done].
  split; [|done]. by apply decimalFrom_ge in Hv.
Qed.

Lemma inInt64_spec (n : Z) :
  inInt64 n = true <-> - 2 ^ 63 <= n <= 2 ^ 63 - 1.
Proof. unfold inInt64. rewrite andb_true_iff, !Z.leb_le. tauto. Qed.

(** The unsigned part, then the cutoff: what [ParseInt] does after the
    sign, for a number that is negative ([neg]) or not. *)
Lemma ParseInt_cutoff (body : string) (neg : bool) (N : Z) :
  (let '(un, err) := ParseUint body in
   match err with
   | Some ErrSyntax => (0, Some ErrSyntax)
   | _ =>
       if negb neg && (2 ^ 63 <=? un) then (2 ^ 63 - 1, Some ErrRange)
       else if neg && (2 ^ 63 <? un) then (- 2 ^ 63, Some ErrRange)
       else (if neg then - un else un, None)
   end) = (N, None)
  <-> exists v, unsignedDecimal body = Some v /\
        N = (if neg then - v else v) /\ inInt64 N = true.
Proof.
  pose proof (ParseUint_decimal body) as H.
  unfold maxUint64 in *.
  destruct (unsignedDecimal body) as [v|].
  - destruct H as [Hv ->].
    assert (Hex : forall P : Prop,
      (exists w, Some v = Some w /\ N = (if neg then - w else w) /\ P)
      <-> N = (if neg then - v else v) /\ P).
    { intros P. split; [intros (w & [= <-] & ? & ?); done|intros []; eauto]. }
    rewrite Hex, inInt64_spec. clear Hex.
    destruct (Z.leb_spec v (2 ^ 64 - 1)) as [Hfit|Hover].
    + destruct neg; simpl.
      * destruct (Z.ltb_spec (2 ^ 63) v); (split; [intros [= <-]|intros [-> ?]]);
          first [lia | done | f_equal; lia].
      * destruct (Z.leb_spec (2 ^ 63) v); (split; [intros [= <-]|intros [-> ?]]);
          first [lia | done | f_equal; lia].
    + replace (2 ^ 63 <=? 2 ^ 64 - 1) with true by reflexivity.
      replace (2 ^ 63 <? 2 ^ 64 - 1) with true by reflexivity.
      destruct neg; simpl; (split; [discriminate|intros [-> ?]; lia]).
  - split; [|intros (w & ? & _); discriminate].
    destruct H as [-> | ->]; [discriminate|].
    replace (2 ^ 63 <=? 2 ^ 64 - 1) with true by reflexivity.
    replace (2 ^ 63 <? 2 ^ 64 - 1) with true by reflexivity.
    destruct neg; discriminate.
Qed.

(** [Atoi] succeeds with [N] exactly when its argument is decimal
    notation, with an optional sign, of a number [N] of the 64-bit range. *)
Lemma Atoi_ok_iff (s : string) (N : Z) :
  Atoi s = (N, None) <-> signedDecimal s = Some N /\ inInt64 N = true.
Proof.
  unfold Atoi, ParseInt, signedDecimal.
  destruct s as [|c s]; [split; [discriminate|by intros [? _]]|].
  destruct (Ascii.eqb c "+") eqn:Hplus; cbn [orb].
  - apply Ascii.eqb_eq in Hplus as ->.
    change (Ascii.eqb "+" "-") with false.
    rewrite (ParseInt_cutoff s false N). split.
    + intros (v & -> & -> & Hr). done.
    + intros [Hv Hr]. exists N. done.
  - destruct (Ascii.eqb c "-") eqn:Hminus.
    + rewrite (ParseInt_cutoff s true N). split.
      * intros (v & -> & -> & Hr). done.
      * intros [Hv Hr]. destruct (unsignedDecimal s) as [v|]; [|done].
        injection Hv as <-. exists v. done.
    + rewrite (ParseInt_cutoff (String c s) false N). split.
      * intros (v & -> & -> & Hr). done.
      * intros [Hv Hr]. exists N. done.
Qed.

(** [Atoi] fails exactly when it does not succeed, and then with an
    error in hand. *)
Lemma Atoi_total (s : string) :
  (exists N, Atoi s = (N, None)) \/ (exists r e, Atoi s = (r, Some e)).
Proof. destruct (Atoi s) as [r [e|]]; eauto. Qed.

End AtoiFacts.

(** ** ParseEtcdObject, path by path *)

Section ParseEtcdObjectPaths.
Import GoStrings Utils.

Variables k v kmsProviderName : string.

Lemma ParseEtcdObject_short_key :
  (length (Split k "/") < 5)%nat ->
  ParseEtcdObject k v kmsProviderName =
    (HasPrefix v etcdObjectValueKmsEncryptedPrefix, "", 0,
     Some (Errorf_s "invalid key format: %s" k)).
Proof.
  intros H. unfold ParseEtcdObject.
  by destruct (Nat.ltb_spec (length (Split k "/")) 5); [|lia].
Qed.

Lemma ParseEtcdObject_plain :
  (5 <= length (Split k "/"))%nat ->
  HasPrefix v etcdObjectValueKmsEncryptedPrefix = false ->
  ParseEtcdObject k v kmsProviderName = (false, keySecret k, 0, None).
Proof.
  intros H Hv. unfold ParseEtcdObject. rewrite Hv.
  by destruct (Nat.ltb_spec (length (Split k "/")) 5); [lia|].
Qed.

Lemma ParseEtcdObject_short_value :
  (5 <= length (Split k "/"))%nat ->
  HasPrefix v etcdObjectValueKmsEncryptedPrefix = true ->
  (length (Split v ":") < 6)%nat ->
  ParseEtcdObject k v kmsProviderName =
    (true, keySecret k, 0,
     Some (Errorf_s "invalid encrypted value format: %s" v)).
Proof.
  intros H Hv Hn. unfold ParseEtcdObject. rewrite Hv.
  destruct (Nat.ltb_spec (length (Split k "/")) 5); [lia|].
  by destruct (Nat.ltb_spec (length (Split v ":")) 6); [|lia].
Qed.

Lemma ParseEtcdObject_seq_ok (seqInt : Z) :
  (5 <= length (Split k "/"))%nat ->
  HasPrefix v etcdObjectValueKmsEncryptedPrefix = true ->
  (6 <= length (Split v ":"))%nat ->
  Strconv.Atoi (TrimPrefix (index (Split v ":") 4) kmsProviderName)
    = (seqInt, None) ->
  ParseEtcdObject k v kmsProviderName = (true, keySecret k, seqInt, None).
Proof.
  intros H Hv Hn Ha. unfold ParseEtcdObject. rewrite Hv.
  destruct (Nat.ltb_spec (length (Split k "/")) 5); [lia|].
  destruct (Nat.ltb_spec (length (Split v ":")) 6); [lia|].
  by rewrite Ha.
Qed.

Lemma ParseEtcdObject_seq_err (r : Z) (e : Strconv.numErr) :
  (5 <= length (Split k "/"))%nat ->
  HasPrefix v etcdObjectValueKmsEncryptedPrefix = true ->
  (6 <= length (Split v ":"))%nat ->
  Strconv.Atoi (TrimPrefix (index (Split v ":") 4) kmsProviderName)
    = (r, Some e) ->
  ParseEtcdObject k v kmsProviderName =
    (true, keySecret k, 0,
     Some (Errorf_w "failed to convert seq to int: %w"
             (NumError "Atoi"
                (TrimPrefix (index (Split v ":") 4) kmsProviderName) e))).
Proof.
  intros H Hv Hn Ha. unfold ParseEtcdObject. rewrite Hv.
  destruct (Nat.ltb_spec (length (Split k "/")) 5); [lia|].
  destruct (Nat.ltb_spec (length (Split v ":")) 6); [lia|].
  by rewrite Ha.
Qed.

End ParseEtcdObjectPaths.

(** Case analysis along the five paths of [ParseEtcdObject k v name]: each
    goal gets the conditions of its path and the call rewritten to the
    result of that path. *)
Ltac parse_paths k v name :=
  let Hk := fresh "Hk" in
  let Hv := fresh "Hv" in
  let Hn := fresh "Hn" in
  let Ha := fresh "Ha" in
  let r := fresh "r" in
  let e := fresh "e" in
  destruct (Nat.ltb_spec (length (GoStrings.Split k "/")) 5) as [Hk|Hk];
  [ rewrite ?(ParseEtcdObject_short_key k v name Hk) in *
  | destruct (GoStrings.HasPrefix v Utils.etcdObjectValueKmsEncryptedPrefix) eqn:Hv;
    [ destruct (Nat.ltb_spec (length (GoStrings.Split v ":")) 6) as [Hn|Hn];
      [ rewrite ?(ParseEtcdObject_short_value k v name Hk Hv Hn) in *
      | destruct (Strconv.Atoi
                    (GoStrings.TrimPrefix
                       (GoStrings.index (GoStrings.Split v ":") 4) name))
          as [r [e|]] eqn:Ha;
        [ rewrite ?(ParseEtcdObject_seq_err k v name r e Hk Hv Hn Ha) in *
        | rewrite ?(ParseEtcdObject_seq_ok k v name r Hk Hv Hn Ha) in * ] ]
    | rewrite ?(ParseEtcdObject_plain k v name Hk Hv) in * ] ].

(** ** Claims on ParseEtcdObject *)

Section ParseEtcdObjectClaims.
Import GoStrings Utils.

(** C5. For a key that splits on "/" into five segments or more,
    ParseEtcdObject returns as secret segment 3 and segment 4 joined by
    "/", whatever segments follow, and its error, if any, is not the one
    of the key; for a key of fewer than five segments it returns the
    error "invalid key format". The key "/registry/secrets/ns/a/b/c"
    gives "ns/a". *)
Theorem ParseEtcdObject_identity (k v kmsProviderName : string) :
  ((5 <= length (Split k "/"))%nat ->
     secretOf (ParseEtcdObject k v kmsProviderName)
       = index (Split k "/") 3 +:+ "/" +:+ index (Split k "/") 4 /\
     forall arg, errOf (ParseEtcdObject k v kmsProviderName)
       <> Some (Errorf_s "invalid key format: %s" arg))
  /\ ((length (Split k "/") < 5)%nat ->
        errOf (ParseEtcdObject k v kmsProviderName)
          = Some (Errorf_s "invalid key format: %s" k))
  /\ secretOf (ParseEtcdObject "/registry/secrets/ns/a/b/c" v kmsProviderName)
       = "ns/a".
Proof.
  split; [|split].
  - intros H. parse_paths k v kmsProviderName; try lia; by split.
  - intros H. parse_paths k v kmsProviderName; [done|lia..].
  - parse_paths "/registry/secrets/ns/a/b/c" v kmsProviderName;
      first [done | simpl in *; lia].
Qed.

Lemma ParseEtcdObject_identity_witness :
  secretOf (ParseEtcdObject "/registry/secrets/default/mysecret"
              "plain" "kmsprovider") = "default/mysecret"
  /\ errOf (ParseEtcdObject "/registry/secrets/default" "plain" "kmsprovider")
       = Some (Errorf_s "invalid key format: %s" "/registry/secrets/default").
Proof.
  split.
  - apply (proj1 (ParseEtcdObject_identity
             "/registry/secrets/default/mysecret" "plain" "kmsprovider")).
    simpl. lia.
  - apply (proj1 (proj2 (ParseEtcdObject_identity
             "/registry/secrets/default" "plain" "kmsprovider"))).
    simpl. lia.
Defined.

(** C7. ParseEtcdObject reports a record as encrypted exactly when the
    value starts with "k8s:enc:kms:". For a value that does not start
    with it, encrypted is false and seq is 0, and nothing else of the
    value is looked at: the four results are the same for any other
    such value (and any provider name). *)
Theorem ParseEtcdObject_encrypted_iff_marker (k v kmsProviderName : string) :
  (encryptedOf (ParseEtcdObject k v kmsProviderName) = true
     <-> HasPrefix v "k8s:enc:kms:" = true)
  /\ (HasPrefix v "k8s:enc:kms:" = false ->
        encryptedOf (ParseEtcdObject k v kmsProviderName) = false /\
        seqOf (ParseEtcdObject k v kmsProviderName) = 0 /\
        forall v' name',
          HasPrefix v' "k8s:enc:kms:" = false ->
          ParseEtcdObject k v' name' = ParseEtcdObject k v kmsProviderName).
Proof.
  change "k8s:enc:kms:" with etcdObjectValueKmsEncryptedPrefix.
  split.
  - parse_paths k v kmsProviderName; done.
  - intros Hplain.
    parse_paths k v kmsProviderName; try congruence.
    + repeat split; try done. intros v' name' Hv'.
      rewrite ParseEtcdObject_short_key by done. congruence.
    + repeat split. intros v' name' Hv'.
      by rewrite ParseEtcdObject_plain.
Qed.

Lemma ParseEtcdObject_encrypted_iff_marker_witness :
  encryptedOf (ParseEtcdObject "/registry/secrets/default/s"
                 "plain-text-secret-data" "kmsprovider") = false /\
  seqOf (ParseEtcdObject "/registry/secrets/default/s"
           "plain-text-secret-data" "kmsprovider") = 0.
Proof.
  pose proof (proj2 (ParseEtcdObject_encrypted_iff_marker
    "/registry/secrets/default/s" "plain-text-secret-data" "kmsprovider"))
    as H.
  destruct H as (He & Hs & _); [reflexivity|]. by split.
Defined.

(** C9. ParseEtcdObject returns results besides an error. Its encrypted
    flag is the prefix test of the value on every input, the error
    "invalid key format" included. Its error is one of three, and with
    the two that come from the value (too few fields between colons, a
    seq that does not convert) the secret returned is the one already
    read from the key, segment 3 "/" segment 4. *)
Theorem ParseEtcdObject_partial_results (k v kmsProviderName : string) :
  encryptedOf (ParseEtcdObject k v kmsProviderName)
    = HasPrefix v "k8s:enc:kms:"
  /\ forall err, errOf (ParseEtcdObject k v kmsProviderName) = Some err ->
       (err = Errorf_s "invalid key format: %s" k /\
        (length (Split k "/") < 5)%nat)
       \/ ((err = Errorf_s "invalid encrypted value format: %s" v \/
            exists num cause,
              err = Errorf_w "failed to convert seq to int: %w"
                      (NumError "Atoi" num cause)) /\
           (5 <= length (Split k "/"))%nat /\
           secretOf (ParseEtcdObject k v kmsProviderName)
             = index (Split k "/") 3 +:+ "/" +:+ index (Split k "/") 4).
Proof.
  change "k8s:enc:kms:" with etcdObjectValueKmsEncryptedPrefix.
  split.
  - parse_paths k v kmsProviderName; done.
  - intros err.
    parse_paths k v kmsProviderName; simpl; intros [= <-]; eauto 10.
Qed.

Lemma ParseEtcdObject_partial_results_witness :
  secretOf (ParseEtcdObject "/registry/secrets/default/mysecret"
              "k8s:enc:kms:v2:kmsprovider1" "kmsprovider")
    = "default/mysecret".
Proof.
  destruct (proj2 (ParseEtcdObject_partial_results
    "/registry/secrets/default/mysecret" "k8s:enc:kms:v2:kmsprovider1"
    "kmsprovider") _ eq_refl) as [[H _] | (_ & _ & H)].
  - discriminate H.
  - exact H.
Defined.

(** C2, as stated, fails. With the provider name "kmsprovider", the
    fifth field "kmsprovider-5" has the prefix and the suffix "-5", a
    negative number: the call succeeds with seq -5, where the claim has
    an error. The fifth field "7" does not start with the prefix: the
    call succeeds with seq 7, where the claim has an error. So success
    implies neither the prefix nor a non-negative number. *)
Lemma ParseEtcdObject_seq_counterexample :
  ParseEtcdObject "/registry/secrets/default/mysecret"
    "k8s:enc:kms:v2:kmsprovider-5:data" "kmsprovider"
    = (true, "default/mysecret", -5, None)
  /\ (HasPrefix "7" "kmsprovider" = false /\
      ParseEtcdObject "/registry/secrets/default/mysecret"
        "k8s:enc:kms:v2:7:data" "kmsprovider"
        = (true, "default/mysecret", 7, None))
  /\ ~ (forall k v kmsProviderName,
          HasPrefix v "k8s:enc:kms:" = true ->
          (6 <= length (Split v ":"))%nat ->
          errOf (ParseEtcdObject k v kmsProviderName) = None ->
          HasPrefix (index (Split v ":") 4) kmsProviderName = true /\
          0 <= seqOf (ParseEtcdObject k v kmsProviderName)).
Proof.
  split; [reflexivity|]. split; [by split|].
  intros H.
  destruct (H "/registry/secrets/default/mysecret"
              "k8s:enc:kms:v2:kmsprovider-5:data" "kmsprovider")
    as [_ Hneg]; [reflexivity | simpl; lia | reflexivity |].
  by vm_compute in Hneg.
Qed.

(** C2, amended. For a key of five segments or more and a value that
    starts with "k8s:enc:kms:" and splits on ":" into six fields or more,
    take the fifth field without its leading kmsProviderName when it has
    one, and whole when it has none. ParseEtcdObject succeeds with seq N
    exactly when that string is decimal notation, with an optional sign
    "+" or "-", of a number N of the 64-bit int range; otherwise (no
    digit, another byte, out of range) it returns the error "failed to
    convert seq to int", with seq 0. *)
Theorem ParseEtcdObject_seq (k v kmsProviderName : string) :
  (5 <= length (Split k "/"))%nat ->
  HasPrefix v "k8s:enc:kms:" = true ->
  (6 <= length (Split v ":"))%nat ->
  let field := index (Split v ":") 4 in
  let seqStr := TrimPrefix field kmsProviderName in
  (forall rest, field = kmsProviderName +:+ rest -> seqStr = rest)
  /\ (HasPrefix field kmsProviderName = false -> seqStr = field)
  /\ match Strconv.signedDecimal seqStr with
     | Some N =>
         if Strconv.inInt64 N then
           ParseEtcdObject k v kmsProviderName = (true, keySecret k, N, None)
         else
           exists cause,
             ParseEtcdObject k v kmsProviderName =
               (true, keySecret k, 0,
                Some (Errorf_w "failed to convert seq to int: %w"
                        (NumError "Atoi" seqStr cause)))
     | None =>
         exists cause,
           ParseEtcdObject k v kmsProviderName =
             (true, keySecret k, 0,
              Some (Errorf_w "failed to convert seq to int: %w"
                      (NumError "Atoi" seqStr cause)))
     end.
Proof.
  change "k8s:enc:kms:" with etcdObjectValueKmsEncryptedPrefix.
  intros Hk Hv Hn field seqStr.
  split; [intros rest ->; apply TrimPrefix_app|].
  split; [apply TrimPrefix_no_prefix|].
  destruct (Strconv.Atoi seqStr) as [r [cause|]] eqn:Ha.
  - assert (Herr : exists cause,
      ParseEtcdObject k v kmsProviderName =
        (true, keySecret k, 0,
         Some (Errorf_w "failed to convert seq to int: %w"
                 (NumError "Atoi" seqStr cause)))).
    { exists cause. by apply (ParseEtcdObject_seq_err k v kmsProviderName r). }
    destruct (Strconv.signedDecimal seqStr) as [N|] eqn:Hd; [|done].
    destruct (Strconv.inInt64 N) eqn:Hr; [|done].
    assert (Strconv.Atoi seqStr = (N, None)) by by apply Atoi_ok_iff.
    congruence.
  - pose proof (ParseEtcdObject_seq_ok k v kmsProviderName r Hk Hv Hn Ha) as Hok.
    apply Atoi_ok_iff in Ha as [-> ->]. exact Hok.
Qed.

Lemma ParseEtcdObject_seq_witness :
  ParseEtcdObject "/registry/secrets/default/mysecret"
    "k8s:enc:kms:v2:kmsprovider12:data" "kmsprovider"
    = (true, "default/mysecret", 12, None).
Proof.
  refine (proj2 (proj2 (ParseEtcdObject_seq
    "/registry/secrets/default/mysecret"
    "k8s:enc:kms:v2:kmsprovider12:data" "kmsprovider" _ _ _))).
  - simpl. lia.
  - reflexivity.
  - simpl. lia.
Defined.

End ParseEtcdObjectClaims.

(** ** The batch analysis *)

Section AnalyzeFacts.
Import Utils Reader.

Variable o : ReadOperation.
Variable latestProviderSeq : Z.

Local Abbreviation parse kv :=
  (ParseEtcdObject (Key kv) (Value kv) (kmsProviderName o)).

Lemma analyzeFrom_app (result : EncryptionAnalysisResult) (xs ys : list KeyValue) :
  analyzeFrom o latestProviderSeq result (xs ++ ys)%list =
    analyzeFrom o latestProviderSeq
      (analyzeFrom o latestProviderSeq result xs) ys.
Proof. apply fold_left_app. Qed.

Lemma analyzeFrom_cons (result : EncryptionAnalysisResult) kv kvs :
  analyzeFrom o latestProviderSeq result (kv :: kvs) =
    analyzeFrom o latestProviderSeq
      (analyzeRecord o latestProviderSeq result kv) kvs.
Proof. reflexivity. Qed.

(** A record that does not parse leaves the result as it is. *)
Lemma analyzeRecord_error result kv err :
  errOf (parse kv) = Some err ->
  analyzeRecord o latestProviderSeq result kv = result.
Proof.
  unfold analyzeRecord.
  destruct (ParseEtcdObject _ _ _) as [[[enc sec] seq] [e|]]; simpl; congruence.
Qed.

(** The flag after one record: it stays as it is unless the record
    parses with another seq, which clears it. *)
Lemma analyzeRecord_flag result kv :
  AllSecretsUseLatestProvider (analyzeRecord o latestProviderSeq result kv) =
    match parse kv with
    | (_, _, _, Some _) => AllSecretsUseLatestProvider result
    | (_, _, seq, None) =>
        (seq =? latestProviderSeq) && AllSecretsUseLatestProvider result
    end.
Proof.
  unfold analyzeRecord.
  destruct (ParseEtcdObject _ _ _) as [[[enc sec] seq] [e|]]; [done|].
  destruct enc, (seq =? latestProviderSeq); reflexivity.
Qed.

(** Once cleared, the flag stays cleared. *)
Lemma analyzeFrom_flag_false kvs : forall result,
  AllSecretsUseLatestProvider result = false ->
  AllSecretsUseLatestProvider (analyzeFrom o latestProviderSeq result kvs)
    = false.
Proof.
  induction kvs as [|kv kvs IH]; intros result H; [done|].
  rewrite analyzeFrom_cons. apply IH.
  rewrite analyzeRecord_flag.
  destruct (parse kv) as [[[enc sec] seq] [e|]]; [done|].
  rewrite H. apply andb_false_r.
Qed.

Lemma analyzeFrom_flag_true kvs : forall result,
  AllSecretsUseLatestProvider (analyzeFrom o latestProviderSeq result kvs)
    = true
  <-> AllSecretsUseLatestProvider result = true /\
      forall kv, In kv kvs -> forall enc sec seq,
        parse kv = (enc, sec, seq, None) -> seq = latestProviderSeq.
Proof.
  induction kvs as [|kv kvs IH]; intros result.
  - simpl. split; [intros H; split; [done|]; by intros ? []|by intros []].
  - rewrite analyzeFrom_cons, IH, analyzeRecord_flag. split.
    + intros [Hflag Hrest].
      destruct (parse kv) as [[[enc sec] seq] [e|]] eqn:Hp.
      * split; [done|]. intros kv' [<-|Hin]; [congruence|by apply Hrest].
      * apply andb_true_iff in Hflag as [Hseq Hflag].
        apply Z.eqb_eq in Hseq. split; [done|].
        intros kv' [<-|Hin]; [congruence|by apply Hrest].
    + intros [Hflag Hall]. split.
      * destruct (parse kv) as [[[enc sec] seq] [e|]] eqn:Hp; [done|].
        rewrite Hflag, andb_true_r. apply Z.eqb_eq.
        apply (Hall kv (or_introl eq_refl) enc sec seq Hp).
      * intros kv' Hin. apply Hall. by right.
Qed.

(** The list of unencrypted secrets is empty at the end exactly when it
    was empty and every record that parses is an encrypted one. *)
Lemma analyzeFrom_unencrypted_nil kvs : forall result,
  UnencryptedSecrets (analyzeFrom o latestProviderSeq result kvs) = []
  <-> UnencryptedSecrets result = [] /\
      forall kv, In kv kvs -> forall enc sec seq,
        parse kv = (enc, sec, seq, None) -> enc = true.
Proof.
  induction kvs as [|kv kvs IH]; intros result.
  - simpl. split; [intros H; split; [done|]; by intros ? []|by intros []].
  - rewrite analyzeFrom_cons, IH. unfold analyzeRecord.
    destruct (parse kv) as [[[enc sec] seq] [e|]] eqn:Hp.
    + split; intros [Hnil Hall]; (split; [done|]).
      * intros kv' [<-|Hin]; [congruence|by apply Hall].
      * intros kv' Hin. apply Hall. by right.
    + destruct enc; simpl.
      * split; intros [Hnil Hall]; (split; [done|]).
        -- intros kv' [<-|Hin]; [congruence|by apply Hall].
        -- intros kv' Hin. apply Hall. by right.
      * split.
        -- intros [Hnil _]. by destruct (UnencryptedSecrets result).
        -- intros [_ Hall].
           by specialize (Hall kv (or_introl eq_refl) false sec seq Hp).
Qed.

End AnalyzeFacts.

Section AnalyzeClaims.
Import Utils Reader.

(** C1. The flag AllSecretsUseLatestProvider of the report is true
    exactly when every record of the batch that parses has the latest
    provider seq. It starts true; a record that parses with another seq
    clears it; once it is cleared after a part of the batch it is
    cleared at the end of the batch. For an empty batch the report has
    two empty lists and the flag true. *)
Theorem analyzeSecretEncryption_flag (o : ReadOperation)
    (kvs : list KeyValue) (latestProviderSeq : Z) :
  (AllSecretsUseLatestProvider (analyzeSecretEncryption o kvs latestProviderSeq)
     = true
   <-> forall kv, In kv kvs -> forall encrypted secret seq,
         ParseEtcdObject (Key kv) (Value kv) (kmsProviderName o)
           = (encrypted, secret, seq, None) ->
         seq = latestProviderSeq)
  /\ (forall result kv encrypted secret seq,
        ParseEtcdObject (Key kv) (Value kv) (kmsProviderName o)
          = (encrypted, secret, seq, None) ->
        seq <> latestProviderSeq ->
        AllSecretsUseLatestProvider
          (analyzeRecord o latestProviderSeq result kv) = false)
  /\ (forall seen rest : list KeyValue,
        kvs = (seen ++ rest)%list ->
        analyzeSecretEncryption o kvs latestProviderSeq =
          analyzeFrom o latestProviderSeq
            (analyzeSecretEncryption o seen latestProviderSeq) rest /\
        (AllSecretsUseLatestProvider
           (analyzeSecretEncryption o seen latestProviderSeq) = false ->
         AllSecretsUseLatestProvider
           (analyzeSecretEncryption o kvs latestProviderSeq) = false))
  /\ analyzeSecretEncryption o [] latestProviderSeq =
       {| EncryptedSecrets := []; UnencryptedSecrets := [];
          AllSecretsUseLatestProvider := true |}.
Proof.
  repeat split.
  - intros H. by apply analyzeFrom_flag_true in H as [_ H].
  - intros H. by apply analyzeFrom_flag_true.
  - intros result kv encrypted secret seq Hp Hne.
    rewrite analyzeRecord_flag, Hp.
    by destruct (Z.eqb_spec seq latestProviderSeq).
  - subst kvs. apply analyzeFrom_app.
  - subst kvs. unfold analyzeSecretEncryption at 2.
    rewrite analyzeFrom_app. apply analyzeFrom_flag_false.
Qed.

Lemma analyzeSecretEncryption_flag_witness :
  AllSecretsUseLatestProvider
    (analyzeRecord (Fixtures.readOp None) 1
       {| EncryptedSecrets := []; UnencryptedSecrets := [];
          AllSecretsUseLatestProvider := true |}
       {| Key := "/registry/secrets/ns/s2"; Value := "plain" |}) = false.
Proof.
  refine (proj1 (proj2 (analyzeSecretEncryption_flag _ [] 1))
            _ _ false "ns/s2" 0 _ _).
  - reflexivity.
  - lia.
Defined.

(** C6. A record for which ParseEtcdObject returns an error is skipped:
    the loop body leaves the result as it is, so the record enters
    neither list and does not touch the flag, and the report of the
    batch is the report of the batch without that record, the records
    after it being processed as usual. *)
Theorem analyzeSecretEncryption_skips_errors (o : ReadOperation)
    (latestProviderSeq : Z) (before after : list KeyValue) (kv : KeyValue)
    (err : error) :
  errOf (ParseEtcdObject (Key kv) (Value kv) (kmsProviderName o)) = Some err ->
  (forall result, analyzeRecord o latestProviderSeq result kv = result)
  /\ analyzeSecretEncryption o (before ++ kv :: after)%list latestProviderSeq =
       analyzeSecretEncryption o (before ++ after)%list latestProviderSeq.
Proof.
  intros Herr.
  assert (Hskip : forall result,
    analyzeRecord o latestProviderSeq result kv = result)
    by (intros result; by eapply analyzeRecord_error).
  split; [done|].
  unfold analyzeSecretEncryption.
  by rewrite !analyzeFrom_app, analyzeFrom_cons, Hskip.
Qed.

Lemma analyzeSecretEncryption_skips_errors_witness :
  let o := Fixtures.readOp None in
  analyzeSecretEncryption o
    ([] ++ {| Key := "invalid-key"; Value := "some-value" |}
        :: [{| Key := "/registry/secrets/default/valid-secret";
               Value := "unencrypted-data" |}])%list 1
  = analyzeSecretEncryption o
      ([] ++ [{| Key := "/registry/secrets/default/valid-secret";
                 Value := "unencrypted-data" |}])%list 1.
Proof.
  intros o.
  refine (proj2 (analyzeSecretEncryption_skips_errors o 1 [] _
                   {| Key := "invalid-key"; Value := "some-value" |}
                   (Errorf_s "invalid key format: %s" "invalid-key") _)).
  reflexivity.
Defined.

End AnalyzeClaims.

(** ** The regular expression *)

Section RegexpFacts.
Import GoStrings Regexp.

Lemma matchAt_Some (name s digits : string) :
  matchAt name s = Some digits ->
  exists rest, s = name +:+ rest /\ digitRun rest = digits /\
               digits <> EmptyString.
Proof.
  unfold matchAt. destruct (HasPrefix s name) eqn:Hp; [|done].
  apply HasPrefix_inv in Hp as [rest ->]. rewrite drop_app.
  destruct (digitRun rest) eqn:Hd; [done|].
  intros [= <-]. by exists rest.
Qed.

Lemma matchAt_None (name s : string) :
  matchAt name s = None <->
  forall d rest, Strconv.isDigit d = true -> s <> name +:+ String d rest.
Proof.
  unfold matchAt. split.
  - intros H d rest Hd ->.
    rewrite HasPrefix_app, drop_app in H. simpl in H. by rewrite Hd in H.
  - intros H. destruct (HasPrefix s name) eqn:Hp; [|done].
    apply HasPrefix_inv in Hp as [rest ->]. rewrite drop_app.
    destruct rest as [|d rest]; [done|]. simpl.
    destruct (Strconv.isDigit d) eqn:Hd; [|done].
    by destruct (H d rest Hd).
Qed.

Lemma FindStringSubmatch_matchAt (name s digits : string) :
  matchAt name s = Some digits ->
  FindStringSubmatch name s = [name +:+ digits; digits].
Proof. intros H. destruct s; simpl; by rewrite H. Qed.

(** The search finds nothing exactly when the text has no occurrence of
    the name followed by a digit, at any position. *)
Lemma FindStringSubmatch_nil (name s : string) :
  FindStringSubmatch name s = [] <->
  forall pre d rest,
    Strconv.isDigit d = true -> s <> pre +:+ name +:+ String d rest.
Proof.
  induction s as [|c s IH].
  - simpl. destruct (matchAt name "") eqn:Hm.
    + split; [done|]. intros H.
      apply matchAt_Some in Hm as (rest & Hs & Hd & Hne).
      destruct rest as [|d rest]; [done|]. simpl in Hd.
      destruct (Strconv.isDigit d) eqn:Hdig; [|done].
      by destruct (H "" d rest Hdig).
    + split; [|done]. intros _ pre d rest Hd Hs.
      destruct pre; [|done]. simpl in Hs.
      by eapply (proj1 (matchAt_None name "")).
  - simpl. destruct (matchAt name (String c s)) eqn:Hm.
    + split; [done|]. intros H.
      apply matchAt_Some in Hm as (rest & Hs & Hd & Hne).
      destruct rest as [|d rest]; [done|]. simpl in Hd.
      destruct (Strconv.isDigit d) eqn:Hdig; [|done].
      by destruct (H "" d rest Hdig).
    + rewrite IH. split.
      * intros H pre d rest Hd Hs. destruct pre as [|x pre].
        -- simpl in Hs. by eapply (proj1 (matchAt_None name (String c s))).
        -- injection Hs as -> ->. by eapply H.
      * intros H pre d rest Hd ->. by eapply (H (String c pre)).
Qed.


(** A name that is the provider name followed by digits and nothing else
    is found at once, with all its digits. *)
Lemma FindStringSubmatch_whole (name digits : string) :
  digits <> EmptyString ->
  allBytes Strconv.isDigit digits = true ->
  FindStringSubmatch name (name +:+ digits) = [name +:+ digits; digits].
Proof.
  intros Hne Hall.
  assert (Hrun : digitRun digits = digits).
  { clear Hne. induction digits as [|d digits IH]; [done|]. simpl in *.
    apply andb_true_iff in Hall as [-> Hall]. by rewrite IH. }
  assert (Hm : matchAt name (name +:+ digits) = Some digits).
  { unfold matchAt. rewrite HasPrefix_app, drop_app, Hrun.
    by destruct digits. }
  by apply FindStringSubmatch_matchAt.
Qed.

End RegexpFacts.

(** ** The scan of the configuration *)

Section ScanFacts.
Import GoStrings Regexp Reader.

Variable name : string.

Lemma scanProviders_cons (p : Provider) (rest : list Provider) :
  scanProviders name (p :: rest) =
    match providerSeq name p with
    | Some seq => Some seq
    | None => scanProviders name rest
    end.
Proof.
  simpl. unfold providerSeq. destruct (KMS p) as [kms|]; [|done].
  destruct (FindStringSubmatch name (Name kms)) as [|a [|b [|c l]]]; try done.
  simpl. unfold index. simpl.
  by destruct (Strconv.Atoi b) as [seq [e|]].
Qed.

Lemma scanProviders_app (ps qs : list Provider) :
  scanProviders name (ps ++ qs)%list =
    match scanProviders name ps with
    | Some seq => Some seq
    | None => scanProviders name qs
    end.
Proof.
  induction ps as [|p ps IH]; [done|].
  rewrite <- app_comm_cons, !scanProviders_cons.
  by destruct (providerSeq name p).
Qed.

Lemma scanProviders_unusable (ps : list Provider) :
  Forall (fun q => providerSeq name q = None) ps ->
  scanProviders name ps = None.
Proof.
  induction 1 as [|p ps Hp _ IH]; [done|].
  by rewrite scanProviders_cons, Hp.
Qed.

(** The two loops together scan the providers of all resources as one
    sequence, in the order of the document. *)
Lemma scanResources_concat (resources : list Resource) :
  scanResources name resources =
    scanProviders name (concat (map Providers resources)).
Proof.
  induction resources as [|r rs IH]; [done|].
  simpl. rewrite scanProviders_app, IH.
  by destruct (scanProviders name (Providers r)).
Qed.

Lemma scanProviders_first (before after : list Provider) (p : Provider) (seq : Z) :
  Forall (fun q => providerSeq name q = None) before ->
  providerSeq name p = Some seq ->
  scanProviders name (before ++ p :: after)%list = Some seq.
Proof.
  intros Hb Hp.
  by rewrite scanProviders_app, scanProviders_unusable,
    scanProviders_cons, Hp.
Qed.

(** A provider that the loop passes over can be taken out. *)
Lemma scanProviders_skip (before after : list Provider) (p : Provider) :
  providerSeq name p = None ->
  scanProviders name (before ++ p :: after)%list =
    scanProviders name (before ++ after)%list.
Proof.
  intros Hp. by rewrite !scanProviders_app, scanProviders_cons, Hp.
Qed.


(** On digits alone, [Atoi] fails only when the number is too large. *)
Lemma Atoi_digits (digits : string) (seq : Z) :
  digits <> EmptyString ->
  allBytes Strconv.isDigit digits = true ->
  Strconv.Atoi digits = (seq, None) <->
  Strconv.unsignedDecimal digits = Some seq /\ seq <= 2 ^ 63 - 1.
Proof.
  intros Hne Hall. rewrite Atoi_ok_iff, inInt64_spec.
  destruct digits as [|d digits]; [done|].
  simpl in Hall. apply andb_true_iff in Hall as [Hd _].
  assert (Hsign : Strconv.signedDecimal (String d digits) =
                  Strconv.unsignedDecimal (String d digits)).
  { unfold Strconv.signedDecimal.
    destruct (Ascii.eqb_spec d "+") as [->|_]; [done|].
    destruct (Ascii.eqb_spec d "-") as [->|_]; done. }
  rewrite Hsign.
  pose proof (ParseUint_decimal (String d digits)) as Hpos.
  split; intros [Hv Hr]; rewrite Hv in Hpos; (split; [done|lia]).
Qed.

End ScanFacts.

(** ** Claims on getLatestProviderSeq *)

Section ScanClaims.
Import GoStrings Regexp Reader.

(** When the ConfigMap is there, has the YAML key and the YAML parses,
    [getLatestProviderSeq] returns what the two loops give, and no
    error. *)
Lemma getLatestProviderSeq_parsed
    (Unmarshal : string -> EncryptionConfiguration + error)
    (o : ReadOperation) (namespace yaml : string) (cm : K8s.ConfigMap)
    (config : EncryptionConfiguration) :
  K8s.Get (clientset o) namespace encryptionProviderConfigName = inl cm ->
  K8s.mapLookup (K8s.Data cm) encryptionConfigYAMLKey = Some yaml ->
  Unmarshal yaml = inl config ->
  getLatestProviderSeq Unmarshal o namespace
    = (latestProviderSeqOf o config, None).
Proof. unfold getLatestProviderSeq. by intros -> -> ->. Qed.

(** A KMS provider in whose name FindStringSubmatch finds nothing (the
    name has nowhere the provider name followed by a digit) is passed
    over: the loops give what they give on the configuration without that
    provider, whatever providers and resources come before and after it,
    and getLatestProviderSeq returns that with no error. *)
Lemma getLatestProviderSeq_skips_unmatched
    (Unmarshal : string -> EncryptionConfiguration + error)
    (o : ReadOperation) (namespace yaml : string) (cm : K8s.ConfigMap)
    (config without : EncryptionConfiguration)
    (before after : list Resource) (ps qs : list Provider)
    (names : list string) (p : Provider) (kms : KMSProvider) :
  literal (kmsProviderName o) = true ->
  KMS p = Some kms ->
  FindStringSubmatch (kmsProviderName o) (Name kms) = [] ->
  Resources config =
    (before ++ {| Providers := ps ++ p :: qs; ResourceNames := names |}
       :: after)%list ->
  Resources without =
    (before ++ {| Providers := ps ++ qs; ResourceNames := names |}
       :: after)%list ->
  K8s.Get (clientset o) namespace encryptionProviderConfigName = inl cm ->
  K8s.mapLookup (K8s.Data cm) encryptionConfigYAMLKey = Some yaml ->
  Unmarshal yaml = inl config ->
  (forall pre d rest, Strconv.isDigit d = true ->
     Name kms <> pre +:+ kmsProviderName o +:+ String d rest)
  /\ latestProviderSeqOf o config = latestProviderSeqOf o without
  /\ getLatestProviderSeq Unmarshal o namespace
       = (latestProviderSeqOf o without, None).
Proof.
  intros _ Hkms Hnil Hconfig Hwithout Hget Hdata Hyaml.
  assert (Hp : providerSeq (kmsProviderName o) p = None)
    by (unfold providerSeq; by rewrite Hkms, Hnil).
  assert (Heq : latestProviderSeqOf o config = latestProviderSeqOf o without).
  { unfold latestProviderSeqOf.
    rewrite !scanResources_concat, Hconfig, Hwithout, !map_app, !concat_app.
    simpl. by rewrite !scanProviders_app, scanProviders_cons, Hp. }
  split; [by apply FindStringSubmatch_nil|]. split; [done|].
  rewrite <- Heq. by eapply getLatestProviderSeq_parsed.
Qed.

(** C3 does not hold of the code. The regular expression is not
    anchored, so a KMS provider whose name is not the provider name
    followed by digits is taken, not skipped, as soon as the name has the
    provider name followed by a digit somewhere. With the provider name
    "kmsprovider": the configuration with the KMS providers
    "kmsprovider5-old" and "kmsprovider7" gives 5, and 7 without the first;
    so does "my-kmsprovider5" before "kmsprovider7". ParseEtcdObject, for
    its part, rejects both names in the envelope of a value. *)
Theorem getLatestProviderSeq_unanchored :
  FindStringSubmatch "kmsprovider" "kmsprovider5-old" = ["kmsprovider5"; "5"]
  /\ latestProviderSeqOf (Fixtures.readOp None)
       (Fixtures.configOf [Fixtures.kmsOf "kmsprovider5-old";
                           Fixtures.kmsOf "kmsprovider7"]) = 5
  /\ latestProviderSeqOf (Fixtures.readOp None)
       (Fixtures.configOf [Fixtures.kmsOf "kmsprovider7"]) = 7
  /\ latestProviderSeqOf (Fixtures.readOp None)
       (Fixtures.configOf [Fixtures.kmsOf "my-kmsprovider5";
                           Fixtures.kmsOf "kmsprovider7"]) = 5
  /\ Utils.errOf
       (Utils.ParseEtcdObject "/registry/secrets/default/mysecret"
          "k8s:enc:kms:v2:kmsprovider5-old:data" "kmsprovider")
     = Some (Errorf_w "failed to convert seq to int: %w"
               (NumError "Atoi" "5-old" Strconv.ErrSyntax))
  /\ Utils.errOf
       (Utils.ParseEtcdObject "/registry/secrets/default/mysecret"
          "k8s:enc:kms:v2:my-kmsprovider5:data" "kmsprovider")
     = Some (Errorf_w "failed to convert seq to int: %w"
               (NumError "Atoi" "my-kmsprovider5" Strconv.ErrSyntax)).
Proof. repeat split. Qed.

(** C4, as stated, fails. With the provider name "kmsprovider", the
    name "kmsprovider99999999999999999999" is the provider name followed
    by digits, and the regular expression matches it; its digits do not
    fit an int, Atoi fails, and the loop goes on. With "kmsprovider7"
    after it the result is 7, the seq of a later entry; alone, the result
    is -1, although a KMS provider matches. *)
Lemma getLatestProviderSeq_first_match_counterexample :
  FindStringSubmatch "kmsprovider" "kmsprovider99999999999999999999"
    = ["kmsprovider99999999999999999999"; "99999999999999999999"]
  /\ Strconv.Atoi "99999999999999999999"
       = (2 ^ 63 - 1, Some Strconv.ErrRange)
  /\ latestProviderSeqOf (Fixtures.readOp None)
       (Fixtures.configOf
          [Fixtures.kmsOf "kmsprovider99999999999999999999";
           Fixtures.kmsOf "kmsprovider7"]) = 7
  /\ latestProviderSeqOf (Fixtures.readOp None)
       (Fixtures.configOf
          [Fixtures.kmsOf "kmsprovider99999999999999999999"]) = -1.
Proof. repeat split. Qed.

Lemma passedOver_providerSeq (name : string) (p : Provider) :
  Views.passedOver name p -> providerSeq name p = None.
Proof.
  intros [Hnone|(kms & Hkms & [Hno|(digits & N & Hname & Hne & Hall & Hval & Hover)])];
    unfold providerSeq.
  - by rewrite Hnone.
  - apply FindStringSubmatch_nil in Hno. by rewrite Hkms, Hno.
  - rewrite Hkms, Hname, FindStringSubmatch_whole by done.
    destruct (Strconv.Atoi digits) as [r [e|]] eqn:Ha; [done|].
    apply Atoi_digits in Ha as [Hv Hfit]; [|done..].
    assert (r = N) as -> by congruence. lia.
Qed.

(** C4, amended. For a provider name without metacharacters of regular
    expressions, getLatestProviderSeq scans the resources in the order of
    the document and, in each, its providers in order, and returns the
    number N of the first KMS provider whose name is the provider name
    followed by digits, and nothing else, of a number N that fits an int,
    when every provider before it is passed over: one that is not a KMS
    provider, one whose name has nowhere the provider name followed by a
    digit, or one whose name is the provider name followed by digits of a
    number above the largest int (its conversion fails and the scan goes
    on). Providers after it have no effect. When every provider of the
    configuration is passed over, the result is the identity seq -1.
    What the scan does with a name that has the provider name followed by
    a digit without being of that form is left open here. *)
Theorem getLatestProviderSeq_first_named (o : ReadOperation)
    (config : EncryptionConfiguration) :
  literal (kmsProviderName o) = true ->
  let name := kmsProviderName o in
  let providers := concat (map Providers (Resources config)) in
  (forall before p after kms digits N,
     providers = (before ++ p :: after)%list ->
     Forall (Views.passedOver name) before ->
     KMS p = Some kms ->
     Name kms = name +:+ digits ->
     digits <> EmptyString ->
     allBytes Strconv.isDigit digits = true ->
     Strconv.unsignedDecimal digits = Some N ->
     N <= 2 ^ 63 - 1 ->
     latestProviderSeqOf o config = N)
  /\ (Forall (Views.passedOver name) providers ->
      latestProviderSeqOf o config = -1).
Proof.
  intros _ name providers. unfold latestProviderSeqOf.
  fold name. rewrite scanResources_concat. fold providers.
  split.
  - intros before p after kms digits N -> Hbefore Hkms Hname Hne Hall Hval Hfit.
    assert (Hp : providerSeq name p = Some N).
    { unfold providerSeq.
      rewrite Hkms, Hname, FindStringSubmatch_whole by done.
      assert (Hok : Strconv.Atoi digits = (N, None)) by by apply Atoi_digits.
      by rewrite Hok. }
    rewrite (scanProviders_first name before after p N); [done| |done].
    eapply Forall_impl; [exact Hbefore|]. apply passedOver_providerSeq.
  - intros Hall. rewrite scanProviders_unusable; [done|].
    eapply Forall_impl; [exact Hall|]. apply passedOver_providerSeq.
Qed.

Lemma getLatestProviderSeq_first_named_witness :
  latestProviderSeqOf (Fixtures.readOp None)
    {| APIVersion := "apiserver.config.k8s.io/v1";
       Kind := "EncryptionConfiguration";
       Resources :=
         [{| Providers := [Fixtures.identity; Fixtures.kmsOf "invalidname"];
             ResourceNames := ["secrets"] |};
          {| Providers := [Fixtures.kmsOf "kmsprovider99999999999999999999";
                           Fixtures.kmsOf "kmsprovider5";
                           Fixtures.kmsOf "kmsprovider7"];
             ResourceNames := ["configmaps"] |}] |} = 5.
Proof.
  refine (proj1 (getLatestProviderSeq_first_named (Fixtures.readOp None) _ _)
            [Fixtures.identity; Fixtures.kmsOf "invalidname";
             Fixtures.kmsOf "kmsprovider99999999999999999999"]
            (Fixtures.kmsOf "kmsprovider5") [Fixtures.kmsOf "kmsprovider7"]
            {| KMSAPIVersion := "v2"; Endpoint := "unix:///tmp/kms.sock";
               Name := "kmsprovider5" |}
            "5" 5 _ _ _ _ _ _ _ _).
  - reflexivity.
  - reflexivity.
  - constructor; [by left|].
    constructor.
    { right. eexists. split; [reflexivity|]. left.
      exact (proj1 (FindStringSubmatch_nil "kmsprovider" "invalidname")
               eq_refl). }
    constructor; [|constructor].
    right. eexists. split; [reflexivity|]. right.
    exists "99999999999999999999", 99999999999999999999.
    split; [reflexivity|]. split; [discriminate|]. split; [reflexivity|].
    split; [reflexivity|lia].
  - reflexivity.
  - reflexivity.
  - discriminate.
  - reflexivity.
  - reflexivity.
  - lia.
Defined.

End ScanClaims.

(** ** The recorder *)

Section RecorderFacts.
Import K8s Recorder.

Lemma formatSecretLists_cases (encryptedSecrets unencryptedSecrets : list string) :
  formatSecretLists encryptedSecrets unencryptedSecrets =
    match encryptedSecrets, unencryptedSecrets with
    | [], [] => ("", "")
    | [], _ :: _ => ("", "ALL_SECRETS")
    | _ :: _, [] => ("ALL_SECRETS", "")
    | _ :: _, _ :: _ =>
        (GoStrings.Join encryptedSecrets ",",
         GoStrings.Join unencryptedSecrets ",")
    end.
Proof. by destruct encryptedSecrets, unencryptedSecrets. Qed.

(** A [Record_] that returns without error leaves in the tracker a
    report whose data are the data found there before (none when there
    was no report), with the two keys of the lists set and the key
    ENCRYPTED_BY_LATEST_SEQ set or deleted. *)
Lemma Record_success (c c' : Cluster) (namespace : string)
    (encryptedSecrets unencryptedSecrets : list string)
    (allSecretsUseLatestProvider : bool) :
  wellFormed c ->
  Record_ c namespace encryptedSecrets unencryptedSecrets
    allSecretsUseLatestProvider = (c', Returned None) ->
  storedData c' namespace =
    Some (setLatestProviderKey (length unencryptedSecrets =? 0)%nat
            allSecretsUseLatestProvider
            (<[unencryptedSecretsKey :=
                 (formatSecretLists encryptedSecrets unencryptedSecrets).2]>
               (<[encryptedSecretsKey :=
                    (formatSecretLists encryptedSecrets unencryptedSecrets).1]>
                  (default ∅ (storedData c namespace))))).
Proof.
  intros Hwf. unfold Record_.
  destruct (formatSecretLists encryptedSecrets unencryptedSecrets)
    as [encryptedValue unencryptedValue]. simpl.
  assert (Hcreate : forall c0,
    createConfigMap c namespace encryptedValue unencryptedValue
      (length unencryptedSecrets =? 0)%nat allSecretsUseLatestProvider
      = (c0, Returned None) ->
    storedData c namespace = None /\
    storedData c0 namespace =
      Some (setLatestProviderKey (length unencryptedSecrets =? 0)%nat
              allSecretsUseLatestProvider
              (<[unencryptedSecretsKey := unencryptedValue]>
                 (<[encryptedSecretsKey := encryptedValue]> ∅)))).
  { intros c0. unfold createConfigMap, Create, storedData. simpl.
    destruct (createReactor c); [done|].
    destruct (tracker c !! (namespace, kmsReporterConfigMapName)); [done|].
    intros [= <-]. simpl. rewrite lookup_insert_eq. simpl.
    split; [done|]. unfold setLatestProviderKey.
    destruct (length unencryptedSecrets =? 0)%nat; [done|].
    by rewrite delete_id by by simplify_map_eq. }
  unfold Get. destruct (getReactor c) as [err|].
  - destruct (IsNotFound err); simpl; [|done].
    intros H. apply Hcreate in H as [-> ->]. done.
  - destruct (tracker c !! (namespace, kmsReporterConfigMapName))
      as [cm|] eqn:Hcm.
    + destruct (Hwf _ _ _ Hcm) as [Hns Hname].
      unfold updateConfigMap, Update, storedData. rewrite Hcm.
      destruct (Data cm) as [data|]; [|done]. simpl.
      destruct (updateReactor c); [done|].
      rewrite Hns, Hname, Hcm.
      intros [= <-]. simpl. by rewrite lookup_insert_eq.
    + intros H. apply Hcreate in H as [-> ->]. done.
Qed.

(** With no reactor in the way, and no report without data in the
    tracker, [Record_] returns without error. *)
Lemma Record_returns (c : Cluster) (namespace : string)
    (encryptedSecrets unencryptedSecrets : list string)
    (allSecretsUseLatestProvider : bool) :
  wellFormed c ->
  getReactor c = None -> createReactor c = None -> updateReactor c = None ->
  (forall cm, tracker c !! (namespace, kmsReporterConfigMapName) = Some cm ->
     Data cm <> None) ->
  exists c',
    Record_ c namespace encryptedSecrets unencryptedSecrets
      allSecretsUseLatestProvider = (c', Returned None).
Proof.
  intros Hwf Hget Hcreate Hupdate Hdata. unfold Record_.
  destruct (formatSecretLists encryptedSecrets unencryptedSecrets)
    as [encryptedValue unencryptedValue].
  unfold Get. rewrite Hget.
  destruct (tracker c !! (namespace, kmsReporterConfigMapName))
    as [cm|] eqn:Hcm.
  - destruct (Hwf _ _ _ Hcm) as [Hns Hname].
    unfold updateConfigMap, Update.
    destruct (Data cm) as [data|] eqn:Hd; [|by destruct (Hdata cm)].
    simpl. rewrite Hupdate, Hns, Hname, Hcm. eauto.
  - simpl. unfold createConfigMap, Create. simpl.
    rewrite Hcreate, Hcm. eauto.
Qed.

Lemma setLatestProviderKey_lookup (allSecretsEncrypted latest : bool)
    (data : gmap string string) :
  setLatestProviderKey allSecretsEncrypted latest data
    !! encryptedByLatestProviderKey
  = if allSecretsEncrypted then Some (Sprintf_t latest) else None.
Proof.
  unfold setLatestProviderKey.
  destruct allSecretsEncrypted; by simplify_map_eq.
Qed.

Lemma setLatestProviderKey_lookup_ne (allSecretsEncrypted latest : bool)
    (data : gmap string string) (key : string) :
  key <> encryptedByLatestProviderKey ->
  setLatestProviderKey allSecretsEncrypted latest data !! key = data !! key.
Proof.
  intros Hne. unfold setLatestProviderKey.
  destruct allSecretsEncrypted; by simplify_map_eq.
Qed.

End RecorderFacts.

(** ** Claims on the recorder *)

Section RecorderClaims.
Import K8s Recorder.

(** After a [Record_] without error, created or updated, the key
    ENCRYPTED_BY_LATEST_SEQ is in the stored data exactly when the list
    of unencrypted secrets handed to [Record_] is empty, and it then holds
    the boolean as text. *)
Lemma Record_latest_key (c c' : Cluster) (namespace : string)
    (encryptedSecrets unencryptedSecrets : list string)
    (allSecretsUseLatestProvider : bool) :
  wellFormed c ->
  Record_ c namespace encryptedSecrets unencryptedSecrets
    allSecretsUseLatestProvider = (c', Returned None) ->
  exists data,
    storedData c' namespace = Some data /\
    data !! encryptedByLatestProviderKey =
      if (length unencryptedSecrets =? 0)%nat
      then Some (Sprintf_t allSecretsUseLatestProvider) else None.
Proof.
  intros Hwf Hrec. eexists. split; [by apply Record_success|].
  apply setLatestProviderKey_lookup.
Qed.

(** What [Read] does once etcd has answered with records and the latest
    seq is known: it records the analysis, and wraps the error if any. *)
Lemma Read_records (Unmarshal : string -> Reader.EncryptionConfiguration + error)
    (o : Reader.ReadOperation) (recorder : Cluster) (namespace : string)
    (cli : Reader.EtcdClientOperator) (kvs : list Reader.KeyValue)
    (latestProviderSeq : Z) :
  Reader.etcdCli o = Some cli ->
  Reader.etcdGet cli Reader.secretEtcdKey = inl kvs ->
  kvs <> [] ->
  Reader.getLatestProviderSeq Unmarshal o namespace = (latestProviderSeq, None) ->
  Reader.Read Unmarshal o recorder namespace =
    let analysisResult :=
      Reader.analyzeSecretEncryption o kvs latestProviderSeq in
    match Record_ recorder namespace
            (Reader.EncryptedSecrets analysisResult)
            (Reader.UnencryptedSecrets analysisResult)
            (Reader.AllSecretsUseLatestProvider analysisResult) with
    | (recorder', Returned (Some err)) =>
        (recorder',
         Returned (Some (Errorf_w
           "failed to store secret encryption status in recorder: %w" err)))
    | (recorder', out) => (recorder', out)
    end.
Proof.
  intros Hcli Hget Hne Hseq. unfold Reader.Read.
  rewrite Hcli, Hget, Hseq. by destruct kvs.
Qed.

(** C8, as stated, fails. The batch has one record, with a key of four
    segments and a value that is not encrypted. ParseEtcdObject returns
    an error for it, the analysis skips it, both lists are empty, and the
    report that Read stores has the key ENCRYPTED_BY_LATEST_SEQ, with
    "true", although the batch has a record that is not encrypted. *)
Lemma Read_latest_key_counterexample :
  let kvs := [{| Reader.Key := "/registry/secrets/default";
                 Reader.Value := "plain-text-secret-data" |}] in
  let o := Fixtures.readOp (Some (Fixtures.etcdOf kvs)) in
  let Unmarshal :=
    fun _ : string =>
      inl (Fixtures.configOf [Fixtures.kmsOf "kmsprovider1"])
        : Reader.EncryptionConfiguration + error in
  Utils.ParseEtcdObject "/registry/secrets/default" "plain-text-secret-data"
    "kmsprovider"
    = (false, "", 0,
       Some (Errorf_s "invalid key format: %s" "/registry/secrets/default"))
  /\ (Reader.Read Unmarshal o Fixtures.emptyCluster "kube-system").2
       = Returned None
  /\ storedData
       (Reader.Read Unmarshal o Fixtures.emptyCluster "kube-system").1
       "kube-system"
     = Some {[ "ENCRYPTED" := ""; "UNENCRYPTED" := "";
               "ENCRYPTED_BY_LATEST_SEQ" := "true" ]}.
Proof. repeat split. Qed.

(** C8, amended. In the report that a Read without error stores for a
    batch that is not empty, the key ENCRYPTED_BY_LATEST_SEQ is present
    exactly when every record of the batch that ParseEtcdObject accepts is
    an encrypted one, that is when the list of unencrypted secrets of the
    analysis is empty; a record that ParseEtcdObject rejects does not
    count. When the key is present it holds, as text, the flag of the
    analysis; when an accepted record is not encrypted the data have no
    such key. *)
Theorem Read_latest_key_iff_all_accepted_encrypted
    (Unmarshal : string -> Reader.EncryptionConfiguration + error)
    (o : Reader.ReadOperation) (recorder recorder' : Cluster)
    (namespace : string) (cli : Reader.EtcdClientOperator)
    (kvs : list Reader.KeyValue) :
  wellFormed recorder ->
  Reader.etcdCli o = Some cli ->
  Reader.etcdGet cli Reader.secretEtcdKey = inl kvs ->
  kvs <> [] ->
  Reader.Read Unmarshal o recorder namespace = (recorder', Returned None) ->
  exists data latestProviderSeq,
    Reader.getLatestProviderSeq Unmarshal o namespace
      = (latestProviderSeq, None) /\
    storedData recorder' namespace = Some data /\
    (is_Some (data !! "ENCRYPTED_BY_LATEST_SEQ")
     <-> forall kv, In kv kvs -> forall encrypted secret seq,
           Utils.ParseEtcdObject (Reader.Key kv) (Reader.Value kv)
             (Reader.kmsProviderName o) = (encrypted, secret, seq, None) ->
           encrypted = true) /\
    (is_Some (data !! "ENCRYPTED_BY_LATEST_SEQ")
     <-> Reader.UnencryptedSecrets
           (Reader.analyzeSecretEncryption o kvs latestProviderSeq) = []) /\
    (is_Some (data !! "ENCRYPTED_BY_LATEST_SEQ") ->
     data !! "ENCRYPTED_BY_LATEST_SEQ" =
       Some (if Reader.AllSecretsUseLatestProvider
                  (Reader.analyzeSecretEncryption o kvs latestProviderSeq)
             then "true" else "false")).
Proof.
  intros Hwf Hcli Hget Hne Hread.
  destruct (Reader.getLatestProviderSeq Unmarshal o namespace)
    as [latestProviderSeq [err|]] eqn:Hseq.
  { unfold Reader.Read in Hread. rewrite Hcli, Hget, Hseq in Hread.
    by destruct kvs. }
  rewrite (Read_records _ _ _ _ cli kvs latestProviderSeq) in Hread by done.
  simpl in Hread.
  set (result := Reader.analyzeSecretEncryption o kvs latestProviderSeq) in *.
  destruct (Record_ recorder namespace (Reader.EncryptedSecrets result)
              (Reader.UnencryptedSecrets result)
              (Reader.AllSecretsUseLatestProvider result))
    as [c'' [[err|]|]] eqn:Hrec; try done.
  injection Hread as ->.
  destruct (Record_latest_key _ _ _ _ _ _ Hwf Hrec) as (data & Hdata & Hkey).
  exists data, latestProviderSeq. split; [done|]. split; [done|].
  change "ENCRYPTED_BY_LATEST_SEQ" with encryptedByLatestProviderKey.
  fold result. rewrite Hkey.
  assert (Hnil : Reader.UnencryptedSecrets result = [] <->
    forall kv, In kv kvs -> forall encrypted secret seq,
      Utils.ParseEtcdObject (Reader.Key kv) (Reader.Value kv)
        (Reader.kmsProviderName o) = (encrypted, secret, seq, None) ->
      encrypted = true).
  { unfold result, Reader.analyzeSecretEncryption.
    rewrite analyzeFrom_unencrypted_nil. simpl. tauto. }
  rewrite <- Hnil.
  destruct (Reader.UnencryptedSecrets result) as [|u us]; simpl.
  - repeat split; eauto.
  - repeat split; try done; by intros [].
Qed.

Lemma Read_latest_key_iff_all_accepted_encrypted_witness :
  let kvs := [{| Reader.Key := "/registry/secrets/default/s1";
                 Reader.Value := "k8s:enc:kms:v2:kmsprovider1:x" |};
              {| Reader.Key := "/registry/secrets/ns/s2";
                 Reader.Value := "plain" |}] in
  let o := Fixtures.readOp (Some (Fixtures.etcdOf kvs)) in
  let Unmarshal :=
    fun _ : string =>
      inl (Fixtures.configOf [Fixtures.kmsOf "kmsprovider1"])
        : Reader.EncryptionConfiguration + error in
  exists data,
    storedData
      (Reader.Read Unmarshal o Fixtures.emptyCluster "kube-system").1
      "kube-system" = Some data /\
    ~ is_Some (data !! "ENCRYPTED_BY_LATEST_SEQ").
Proof.
  intros kvs o Unmarshal.
  destruct (Read_latest_key_iff_all_accepted_encrypted
              Unmarshal o Fixtures.emptyCluster
              (Reader.Read Unmarshal o Fixtures.emptyCluster "kube-system").1
              "kube-system" (Fixtures.etcdOf kvs) kvs)
    as (data & seq & _ & Hdata & Hiff & _).
  - intros namespace name cm H. simpl in H.
    by rewrite lookup_empty in H.
  - reflexivity.
  - reflexivity.
  - discriminate.
  - reflexivity.
  - exists data. split; [exact Hdata|].
    intros Hsome.
    pose proof (proj1 Hiff Hsome
      {| Reader.Key := "/registry/secrets/ns/s2"; Reader.Value := "plain" |}
      (or_intror (or_introl eq_refl)) false "ns/s2" 0 eq_refl) as Habs.
    discriminate Habs.
Defined.

(** C10. When Record updates a report that is already in the tracker
    and returns without error, the stored data have ENCRYPTED and
    UNENCRYPTED set to the two strings of formatSecretLists for the new
    lists, whatever they held; when the list of unencrypted secrets is
    not empty, they have no key ENCRYPTED_BY_LATEST_SEQ, whatever a
    previous run left there; every other key is as it was. *)
Theorem Record_update_consistent (c c' : Cluster) (namespace : string)
    (cm : ConfigMap) (old : gmap string string)
    (encryptedSecrets unencryptedSecrets : list string)
    (allSecretsUseLatestProvider : bool) :
  wellFormed c ->
  tracker c !! (namespace, "kms-reporter") = Some cm ->
  Data cm = Some old ->
  Record_ c namespace encryptedSecrets unencryptedSecrets
    allSecretsUseLatestProvider = (c', Returned None) ->
  exists data,
    storedData c' namespace = Some data /\
    data !! "ENCRYPTED"
      = Some (formatSecretLists encryptedSecrets unencryptedSecrets).1 /\
    data !! "UNENCRYPTED"
      = Some (formatSecretLists encryptedSecrets unencryptedSecrets).2 /\
    (unencryptedSecrets <> [] -> data !! "ENCRYPTED_BY_LATEST_SEQ" = None) /\
    (forall key,
       key <> "ENCRYPTED" -> key <> "UNENCRYPTED" ->
       key <> "ENCRYPTED_BY_LATEST_SEQ" ->
       data !! key = old !! key).
Proof.
  intros Hwf Hcm Hold Hrec. eexists. split; [by apply Record_success|].
  assert (Hprev : storedData c namespace = Some old)
    by (unfold storedData, kmsReporterConfigMapName; by rewrite Hcm).
  rewrite Hprev. simpl.
  change "ENCRYPTED_BY_LATEST_SEQ" with encryptedByLatestProviderKey.
  change "UNENCRYPTED" with unencryptedSecretsKey.
  change "ENCRYPTED" with encryptedSecretsKey.
  rewrite setLatestProviderKey_lookup.
  rewrite !setLatestProviderKey_lookup_ne by done.
  repeat split.
  - by simplify_map_eq.
  - by simplify_map_eq.
  - intros Hne. by destruct unencryptedSecrets.
  - intros key H1 H2 H3.
    rewrite setLatestProviderKey_lookup_ne by done. by simplify_map_eq.
Qed.

Lemma Record_update_consistent_witness :
  let stale : gmap string string :=
    {[ "ENCRYPTED" := "ALL_SECRETS"; "UNENCRYPTED" := "";
       "ENCRYPTED_BY_LATEST_SEQ" := "true" ]} in
  let report := {| Name := "kms-reporter"; Namespace := "kube-system";
                   Data := Some stale |} in
  let c := Fixtures.clusterOf {[ ("kube-system", "kms-reporter") := report ]} in
  exists data,
    storedData
      (Record_ c "kube-system" ["default/secret1"] ["default/secret2"] true).1
      "kube-system" = Some data /\
    data !! "ENCRYPTED" = Some "default/secret1" /\
    data !! "UNENCRYPTED" = Some "default/secret2" /\
    data !! "ENCRYPTED_BY_LATEST_SEQ" = None.
Proof.
  intros stale report c.
  destruct (Record_update_consistent c
              (Record_ c "kube-system" ["default/secret1"]
                 ["default/secret2"] true).1
              "kube-system" report stale
              ["default/secret1"] ["default/secret2"] true)
    as (data & Hdata & Henc & Hunenc & Hnone & _).
  - intros namespace name cm H. subst c. simpl in H.
    apply lookup_singleton_Some in H as [[= <- <-] <-]. by split.
  - reflexivity.
  - reflexivity.
  - reflexivity.
  - exists data. repeat split; [exact Hdata|exact Henc|exact Hunenc|].
    by apply Hnone.
Defined.

End RecorderClaims.

(** * Further properties *)

(** ** Splitting and joining *)

Section SplitFacts.
Import GoStrings Views.

Variable sep : ascii.

Lemma Split_sep (s : string) : Split (String sep s) sep = "" :: Split s sep.
Proof. simpl. by rewrite Ascii.eqb_refl. Qed.

(** The fields of two strings joined by a separator are the fields of the
    first, then the fields of the second. *)
Lemma Split_app_sep (a b : string) :
  Split (a +:+ String sep b) sep = (Split a sep ++ Split b sep)%list.
Proof.
  induction a as [|c a IH]; [apply Split_sep|].
  simpl. rewrite IH. destruct (Ascii.eqb c sep); [done|].
  pose proof (Split_nonempty a sep). by destruct (Split a sep).
Qed.

Lemma append_assoc (a b c : string) : (a +:+ b) +:+ c = a +:+ b +:+ c.
Proof.
  induction a as [|x a IH]; [reflexivity|].
  change (String x ((a +:+ b) +:+ c) = String x (a +:+ b +:+ c)).
  by rewrite IH.
Qed.

Lemma Split_app_sep1 (a b : string) :
  Split (a +:+ String sep "" +:+ b) sep = (Split a sep ++ Split b sep)%list.
Proof. exact (Split_app_sep a b). Qed.

Lemma free_cons (c : ascii) (s : string) :
  free sep (String c s) = true <-> c <> sep /\ free sep s = true.
Proof.
  unfold free. simpl. destruct (Ascii.eqb_spec sep c) as [->|Hne]; simpl.
  - split; [done|]. by intros [H _].
  - split; [|by intros [_ H]]. intros H. split; [congruence|done].
Qed.

Lemma free_app (a b : string) :
  free sep (a +:+ b) = true <-> free sep a = true /\ free sep b = true.
Proof.
  induction a as [|c a IH].
  - simpl. unfold free at 2. simpl. tauto.
  - change (String c a +:+ b) with (String c (a +:+ b)).
    rewrite !free_cons, IH. tauto.
Qed.

(** A string without the separator is its own single field. *)
Lemma Split_free (s : string) : free sep s = true -> Split s sep = [s].
Proof.
  induction s as [|c s IH]; [done|].
  intros [Hc Hs]%free_cons. simpl.
  destruct (Ascii.eqb_spec c sep); [done|]. by rewrite IH.
Qed.

Lemma Join_cons (e : string) (rest : list string) :
  rest <> [] ->
  Join (e :: rest) (String sep "") = e +:+ String sep (Join rest (String sep "")).
Proof. by destruct rest. Qed.

(** Joining fields that are free of the separator and splitting the
    result gives the fields back. *)
Lemma Split_Join (elems : list string) :
  elems <> [] ->
  Forall (fun e => free sep e = true) elems ->
  Split (Join elems (String sep "")) sep = elems.
Proof.
  intros Hne Hall. induction Hall as [|e rest He Hrest IH]; [done|].
  destruct rest as [|e' rest]; [by apply Split_free|].
  rewrite Join_cons by done.
  rewrite Split_app_sep, Split_free, IH by done. done.
Qed.

End SplitFacts.

(** ** ParseEtcdObject on well-formed keys and values *)

Section ParseEtcdObjectLayout.
Import GoStrings Utils Views.

Lemma Split_layout (s0 s1 s2 ns rest : string) :
  free "/" s0 = true -> free "/" s1 = true -> free "/" s2 = true ->
  free "/" ns = true ->
  Split (s0 +:+ "/" +:+ s1 +:+ "/" +:+ s2 +:+ "/" +:+ ns +:+ "/" +:+ rest) "/"
    = s0 :: s1 :: s2 :: ns :: Split rest "/".
Proof.
  intros H0 H1 H2 Hns.
  rewrite !Split_app_sep1, !Split_free by done. done.
Qed.

Lemma contains_app_sep (a b : string) (c : ascii) :
  Regexp.contains (a +:+ String c b) c = true.
Proof.
  induction a as [|d a IH]; simpl; [by rewrite Ascii.eqb_refl|].
  rewrite IH. apply orb_true_r.
Qed.

Lemma inInt64_Atoi (s : string) (n : Z) :
  Strconv.Atoi s = (n, None) -> Strconv.inInt64 n = true.
Proof. by intros [_ H]%Atoi_ok_iff. Qed.

(** X1. A key laid out as five segments s0/s1/s2/ns/name, none of which
    holds a "/", gives the secret ns/name and no error of the key, whatever
    the first three segments are (the key "/registry/secrets/ns/name" has
    an empty first segment); so does the same key followed by "/" and
    anything more. *)
Theorem ParseEtcdObject_key_layout (s0 s1 s2 ns name more v kmsProviderName : string) :
  free "/" s0 = true -> free "/" s1 = true -> free "/" s2 = true ->
  free "/" ns = true -> free "/" name = true ->
  let key := s0 +:+ "/" +:+ s1 +:+ "/" +:+ s2 +:+ "/" +:+ ns +:+ "/" +:+ name in
  let longer :=
    s0 +:+ "/" +:+ s1 +:+ "/" +:+ s2 +:+ "/" +:+ ns +:+ "/" +:+ name
       +:+ "/" +:+ more in
  (secretOf (ParseEtcdObject key v kmsProviderName) = ns +:+ "/" +:+ name /\
   (5 <= length (Split key "/"))%nat)
  /\ (secretOf (ParseEtcdObject longer v kmsProviderName) = ns +:+ "/" +:+ name /\
      (5 <= length (Split longer "/"))%nat).
Proof.
  intros H0 H1 H2 Hns Hname key longer.
  assert (Hkey : Split key "/" = [s0; s1; s2; ns; name]).
  { unfold key. by rewrite Split_layout, Split_free. }
  assert (Hlonger : Split longer "/" =
                    s0 :: s1 :: s2 :: ns :: name :: Split more "/").
  { unfold longer. rewrite Split_layout by done.
    by rewrite Split_app_sep1, Split_free. }
  split.
  - assert (Hsec : keySecret key = ns +:+ "/" +:+ name)
      by (unfold keySecret; by rewrite Hkey).
    rewrite Hkey. split; [|simpl; lia].
    parse_paths key v kmsProviderName; try done.
    rewrite Hkey in *. simpl in *. lia.
  - assert (Hsec : keySecret longer = ns +:+ "/" +:+ name)
      by (unfold keySecret; by rewrite Hlonger).
    rewrite Hlonger. split; [|simpl; lia].
    parse_paths longer v kmsProviderName; try done.
    rewrite Hlonger in *. simpl in *. lia.
Qed.

Lemma ParseEtcdObject_key_layout_witness :
  secretOf (ParseEtcdObject "/registry/secrets/kube-system/bootstrap-token-ldeus6"
              "plain" "kmsprovider")
    = "kube-system/bootstrap-token-ldeus6".
Proof.
  refine (proj1 (proj1 (ParseEtcdObject_key_layout "" "registry" "secrets"
            "kube-system" "bootstrap-token-ldeus6" "" "plain" "kmsprovider"
            _ _ _ _ _)));
    reflexivity.
Defined.

(** The fields of an envelope, and what [ParseEtcdObject] makes of them. *)
Lemma envelope_parse (k version kmsProviderName digits data : string)
    (N : Z) :
  (5 <= length (Split k "/"))%nat ->
  free ":" version = true ->
  free ":" kmsProviderName = true ->
  digits <> EmptyString ->
  Regexp.allBytes Strconv.isDigit digits = true ->
  Strconv.unsignedDecimal digits = Some N ->
  N <= 2 ^ 63 - 1 ->
  ParseEtcdObject k
    ("k8s:enc:kms:" +:+ version +:+ ":" +:+ kmsProviderName +:+ digits
       +:+ ":" +:+ data)
    kmsProviderName
  = (true, keySecret k, N, None).
Proof.
  intros Hk Hversion Hname Hne Hdigits Hval Hfit.
  set (v := "k8s:enc:kms:" +:+ version +:+ ":" +:+ kmsProviderName +:+ digits
              +:+ ":" +:+ data).
  assert (Hfree : free ":" digits = true).
  { clear Hne Hval. induction digits as [|d ds IH]; [done|].
    simpl in Hdigits. apply andb_true_iff in Hdigits as [Hd Hds].
    apply free_cons. split; [|by apply IH]. by intros ->. }
  assert (Hfields : Split v ":" =
    "k8s" :: "enc" :: "kms" :: version :: (kmsProviderName +:+ digits)
      :: Split data ":").
  { unfold v. rewrite <- (append_assoc kmsProviderName digits).
    change (Split ("k8s" +:+ ":" +:+ "enc" +:+ ":" +:+ "kms" +:+ ":" +:+ version
                     +:+ ":" +:+ (kmsProviderName +:+ digits) +:+ ":" +:+ data)
              ":" =
            "k8s" :: "enc" :: "kms" :: version :: (kmsProviderName +:+ digits)
              :: Split data ":").
    rewrite !Split_app_sep1.
    rewrite (Split_free ":" version) by done.
    rewrite (Split_free ":" (kmsProviderName +:+ digits))
      by by apply free_app.
    done. }
  apply ParseEtcdObject_seq_ok.
  - done.
  - apply HasPrefix_app.
  - rewrite Hfields. simpl. pose proof (Split_nonempty data ":").
    destruct (Split data ":"); [done|simpl; lia].
  - rewrite Hfields. unfold index. simpl. rewrite TrimPrefix_app.
    by apply Atoi_digits.
Qed.

(** X2. A value laid out as the envelope
    k8s:enc:kms:<version>:<kmsProviderName><digits>:<data>, where neither
    the version nor the provider name holds a ":" and the digits are the
    decimal notation of a number N that fits an int, gives encrypted,
    seq N and no error, whatever the data are, colons included. *)
Theorem ParseEtcdObject_envelope (k version kmsProviderName digits data : string)
    (N : Z) :
  (5 <= length (Split k "/"))%nat ->
  free ":" version = true ->
  free ":" kmsProviderName = true ->
  digits <> EmptyString ->
  Regexp.allBytes Strconv.isDigit digits = true ->
  Strconv.unsignedDecimal digits = Some N ->
  N <= 2 ^ 63 - 1 ->
  ParseEtcdObject k
    ("k8s:enc:kms:" +:+ version +:+ ":" +:+ kmsProviderName +:+ digits
       +:+ ":" +:+ data)
    kmsProviderName
  = (true, keySecret k, N, None).
Proof. apply envelope_parse. Qed.

Lemma ParseEtcdObject_envelope_witness :
  ParseEtcdObject "/registry/secrets/default/mysecret"
    ("k8s:enc:kms:" +:+ "v2" +:+ ":" +:+ "kmsprovider" +:+ "123"
       +:+ ":" +:+ "some:data")
    "kmsprovider"
  = (true, "default/mysecret", 123, None).
Proof.
  refine (ParseEtcdObject_envelope "/registry/secrets/default/mysecret"
            "v2" "kmsprovider" "123" "some:data" 123 _ _ _ _ _ _ _);
    first [reflexivity | discriminate | simpl; lia].
Defined.

(** X3. Whatever ParseEtcdObject is given, its seq is a number of the int
    range, and it is 0 whenever an error is returned; its secret is empty
    exactly when the key has fewer than five segments, and holds a "/"
    otherwise. *)
Theorem ParseEtcdObject_results_shape (k v kmsProviderName : string) :
  Strconv.inInt64 (seqOf (ParseEtcdObject k v kmsProviderName)) = true
  /\ (errOf (ParseEtcdObject k v kmsProviderName) <> None ->
      seqOf (ParseEtcdObject k v kmsProviderName) = 0)
  /\ (secretOf (ParseEtcdObject k v kmsProviderName) = ""
      <-> (length (Split k "/") < 5)%nat)
  /\ ((5 <= length (Split k "/"))%nat ->
      Regexp.contains (secretOf (ParseEtcdObject k v kmsProviderName)) "/"
        = true).
Proof.
  assert (Hslash : Regexp.contains (keySecret k) "/" = true)
    by apply contains_app_sep.
  assert (Hnonempty : keySecret k <> "")
    by (intros Heq; by rewrite Heq in Hslash).
  parse_paths k v kmsProviderName;
    unfold secretOf, seqOf, errOf; cbn [fst snd];
    (split; [first [done | by eapply inInt64_Atoi]|]);
    (split; [done|]); split.
  - done.
  - lia.
  - split; [done|lia].
  - done.
  - split; [done|lia].
  - done.
  - split; [done|lia].
  - done.
  - split; [done|lia].
  - done.
Qed.

Lemma ParseEtcdObject_results_shape_witness :
  seqOf (ParseEtcdObject "/registry/secrets/default/mysecret"
           "k8s:enc:kms:v2:kmsprovidabc:data" "kmsprovid") = 0.
Proof.
  refine (proj1 (proj2 (ParseEtcdObject_results_shape
            "/registry/secrets/default/mysecret"
            "k8s:enc:kms:v2:kmsprovidabc:data" "kmsprovid")) _).
  discriminate.
Defined.

End ParseEtcdObjectLayout.

(** ** The analysis as a whole *)

Section AnalysisViews.
Import Utils Reader Views.

Variable o : ReadOperation.
Variable latestProviderSeq : Z.

Lemma analyzeRecord_views (result : EncryptionAnalysisResult) (kv : KeyValue) :
  analyzeRecord o latestProviderSeq result kv =
    {| EncryptedSecrets :=
         EncryptedSecrets result ++ option_list (encryptedSecretOf o kv);
       UnencryptedSecrets :=
         UnencryptedSecrets result ++ option_list (unencryptedSecretOf o kv);
       AllSecretsUseLatestProvider :=
         AllSecretsUseLatestProvider result && keepsFlag o latestProviderSeq kv |}.
Proof.
  unfold analyzeRecord, encryptedSecretOf, unencryptedSecretOf, keepsFlag.
  destruct (ParseEtcdObject _ _ _) as [[[enc sec] seq] [e|]];
    destruct enc; simpl; rewrite ?app_nil_r, ?andb_true_r;
    try (by destruct result);
    by destruct (seq =? latestProviderSeq),
                (AllSecretsUseLatestProvider result).
Qed.

Lemma analyzeFrom_views (kvs : list KeyValue) : forall result,
  analyzeFrom o latestProviderSeq result kvs =
    {| EncryptedSecrets :=
         EncryptedSecrets result ++ omap (encryptedSecretOf o) kvs;
       UnencryptedSecrets :=
         UnencryptedSecrets result ++ omap (unencryptedSecretOf o) kvs;
       AllSecretsUseLatestProvider :=
         AllSecretsUseLatestProvider result &&
         forallb (keepsFlag o latestProviderSeq) kvs |}.
Proof.
  induction kvs as [|kv kvs IH]; intros result.
  - simpl. rewrite !app_nil_r, andb_true_r. by destruct result.
  - rewrite analyzeFrom_cons, IH, analyzeRecord_views. simpl.
    rewrite <- !app_assoc, andb_assoc. f_equal.
    + f_equal. by destruct (encryptedSecretOf o kv).
    + f_equal. by destruct (unencryptedSecretOf o kv).
Qed.

Lemma analyzeSecretEncryption_views (kvs : list KeyValue) :
  analyzeSecretEncryption o kvs latestProviderSeq =
    {| EncryptedSecrets := omap (encryptedSecretOf o) kvs;
       UnencryptedSecrets := omap (unencryptedSecretOf o) kvs;
       AllSecretsUseLatestProvider :=
         forallb (keepsFlag o latestProviderSeq) kvs |}.
Proof. unfold analyzeSecretEncryption. by rewrite analyzeFrom_views. Qed.

Lemma views_accepted (kv : KeyValue) :
  match encryptedSecretOf o kv, unencryptedSecretOf o kv with
  | Some secret, None | None, Some secret =>
      accepted o kv = true /\ secret = keySecret (Key kv)
  | None, None => accepted o kv = false
  | Some _, Some _ => False
  end.
Proof.
  unfold encryptedSecretOf, unencryptedSecretOf, accepted.
  parse_paths (Key kv) (Value kv) (kmsProviderName o);
    cbn -[GoStrings.HasPrefix]; try done.
  by destruct (GoStrings.HasPrefix _ _).
Qed.

End AnalysisViews.

Section AnalysisProperties.
Import Utils Reader Views.

(** X4. The two lists of the report hold, in the order of the batch, the
    secrets of the records that ParseEtcdObject accepts: the encrypted
    ones in the first list, the others in the second. Each accepted
    record is in exactly one list, with the secret read from its key, so
    the two lengths add up to the number of accepted records; the lists do
    not depend on the latest provider seq. *)
Theorem analyzeSecretEncryption_lists (o : ReadOperation)
    (kvs : list KeyValue) (latestProviderSeq : Z) :
  EncryptedSecrets (analyzeSecretEncryption o kvs latestProviderSeq)
    = omap (encryptedSecretOf o) kvs
  /\ UnencryptedSecrets (analyzeSecretEncryption o kvs latestProviderSeq)
      = omap (unencryptedSecretOf o) kvs
  /\ (length (EncryptedSecrets (analyzeSecretEncryption o kvs latestProviderSeq))
      + length (UnencryptedSecrets
                  (analyzeSecretEncryption o kvs latestProviderSeq))
      = length (filter (fun kv => accepted o kv = true) kvs))%nat
  /\ (forall kv encrypted secret seq,
        ParseEtcdObject (Key kv) (Value kv) (kmsProviderName o)
          = (encrypted, secret, seq, None) ->
        secret = keySecret (Key kv) /\
        encryptedSecretOf o kv = (if encrypted then Some secret else None) /\
        unencryptedSecretOf o kv = (if encrypted then None else Some secret))
  /\ (forall kv err,
        errOf (ParseEtcdObject (Key kv) (Value kv) (kmsProviderName o))
          = Some err ->
        encryptedSecretOf o kv = None /\ unencryptedSecretOf o kv = None).
Proof.
  rewrite analyzeSecretEncryption_views. simpl.
  split; [done|]. split; [done|]. split; [|split].
  - induction kvs as [|kv kvs IH]; [done|].
    rewrite filter_cons. unfold omap in IH |- *. simpl.
    pose proof (views_accepted o kv) as Hv.
    destruct (encryptedSecretOf o kv), (unencryptedSecretOf o kv);
      try done; simpl.
    + destruct Hv as [-> _]. rewrite decide_True by done. simpl. lia.
    + destruct Hv as [-> _]. rewrite decide_True by done. simpl. lia.
    + rewrite Hv, decide_False by done. lia.
  - intros kv encrypted secret seq Hp.
    pose proof (views_accepted o kv) as Hv.
    unfold encryptedSecretOf, unencryptedSecretOf in *. rewrite Hp in *.
    destruct encrypted; by destruct Hv as [_ ->].
  - intros kv err Herr. unfold encryptedSecretOf, unencryptedSecretOf.
    destruct (ParseEtcdObject _ _ _) as [[[enc sec] seq] [e|]]; [|done].
    by destruct enc.
Qed.

Lemma analyzeSecretEncryption_lists_witness :
  encryptedSecretOf (Fixtures.readOp None)
    {| Key := "/registry/secrets/default/secret1";
       Value := "k8s:enc:kms:v2:kmsprovider1:encrypted-data" |}
  = Some "default/secret1".
Proof.
  refine (proj1 (proj2 (proj1 (proj2 (proj2 (proj2
            (analyzeSecretEncryption_lists (Fixtures.readOp None) [] 1))))
            {| Key := "/registry/secrets/default/secret1";
               Value := "k8s:enc:kms:v2:kmsprovider1:encrypted-data" |}
            true "default/secret1" 1 _))).
  reflexivity.
Defined.

(** X5. The report of a batch made of two parts is made of the reports
    of the parts: each list is the list of the first part followed by
    that of the second, and the flag is the conjunction of the two
    flags. *)
Theorem analyzeSecretEncryption_app (o : ReadOperation)
    (first second : list KeyValue) (latestProviderSeq : Z) :
  analyzeSecretEncryption o (first ++ second)%list latestProviderSeq =
    {| EncryptedSecrets :=
         EncryptedSecrets (analyzeSecretEncryption o first latestProviderSeq)
         ++ EncryptedSecrets (analyzeSecretEncryption o second latestProviderSeq);
       UnencryptedSecrets :=
         UnencryptedSecrets (analyzeSecretEncryption o first latestProviderSeq)
         ++ UnencryptedSecrets
              (analyzeSecretEncryption o second latestProviderSeq);
       AllSecretsUseLatestProvider :=
         AllSecretsUseLatestProvider
           (analyzeSecretEncryption o first latestProviderSeq)
         && AllSecretsUseLatestProvider
              (analyzeSecretEncryption o second latestProviderSeq) |}.
Proof.
  rewrite !analyzeSecretEncryption_views. simpl.
  by rewrite !omap_app, forallb_app.
Qed.

(** X6. A record that ParseEtcdObject accepts as not encrypted has seq
    0, so a batch that holds one has the flag false unless the latest
    provider seq is 0; in particular it is false for the identity seq -1
    that getLatestProviderSeq returns when no KMS provider is
    configured. *)
Theorem analyzeSecretEncryption_plaintext_flag (o : ReadOperation)
    (kvs : list KeyValue) (latestProviderSeq : Z) (kv : KeyValue)
    (secret : string) (seq : Z) :
  In kv kvs ->
  ParseEtcdObject (Key kv) (Value kv) (kmsProviderName o)
    = (false, secret, seq, None) ->
  seq = 0
  /\ (latestProviderSeq <> 0 ->
      AllSecretsUseLatestProvider
        (analyzeSecretEncryption o kvs latestProviderSeq) = false)
  /\ AllSecretsUseLatestProvider
       (analyzeSecretEncryption o kvs identityProviderSeq) = false.
Proof.
  intros Hin Hp.
  assert (Hseq : seq = 0).
  { revert Hp. parse_paths (Key kv) (Value kv) (kmsProviderName o); congruence. }
  subst seq.
  assert (Hflag : forall latest, latest <> 0 ->
    AllSecretsUseLatestProvider (analyzeSecretEncryption o kvs latest) = false).
  { intros latest Hne. rewrite analyzeSecretEncryption_views. simpl.
    apply not_true_is_false. intros Hall.
    rewrite forallb_forall in Hall. specialize (Hall kv Hin).
    unfold keepsFlag in Hall. rewrite Hp in Hall.
    apply Z.eqb_eq in Hall. congruence. }
  split; [done|]. split; [apply Hflag|by apply Hflag].
Qed.

Lemma analyzeSecretEncryption_plaintext_flag_witness :
  AllSecretsUseLatestProvider
    (analyzeSecretEncryption (Fixtures.readOp None)
       [{| Key := "/registry/secrets/ns/s2"; Value := "plain" |}]
       identityProviderSeq) = false.
Proof.
  refine (proj2 (proj2 (analyzeSecretEncryption_plaintext_flag
            (Fixtures.readOp None) _ 1
            {| Key := "/registry/secrets/ns/s2"; Value := "plain" |}
            "ns/s2" 0 _ _))).
  - by left.
  - reflexivity.
Defined.

End AnalysisProperties.

(** ** The strings of the report *)

Section FormatProperties.
Import GoStrings Utils Reader Recorder Views.

Lemma contains_app_l (a b : string) (c : ascii) :
  Regexp.contains a c = true -> Regexp.contains (a +:+ b) c = true.
Proof.
  induction a as [|d a IH]; [done|]. simpl.
  destruct (Ascii.eqb c d); [done|]. exact IH.
Qed.

Lemma Join_contains (elems : list string) (sep : string) (c : ascii) (e : string) :
  Regexp.contains e c = true ->
  Regexp.contains (Join (e :: elems) sep) c = true.
Proof. intros He. destruct elems; [done|]. by apply contains_app_l. Qed.

Lemma encryptedSecretOf_slash (o : ReadOperation) (kvs : list KeyValue) :
  Forall (fun secret => Regexp.contains secret "/" = true)
    (omap (encryptedSecretOf o) kvs).
Proof.
  apply Forall_forall. intros secret [kv [_ Hkv]]%list_elem_of_omap.
  pose proof (views_accepted o kv) as Hv. rewrite Hkv in Hv.
  destruct (unencryptedSecretOf o kv); [done|].
  destruct Hv as [_ ->]. apply contains_app_sep.
Qed.

Lemma unencryptedSecretOf_slash (o : ReadOperation) (kvs : list KeyValue) :
  Forall (fun secret => Regexp.contains secret "/" = true)
    (omap (unencryptedSecretOf o) kvs).
Proof.
  apply Forall_forall. intros secret [kv [_ Hkv]]%list_elem_of_omap.
  pose proof (views_accepted o kv) as Hv. rewrite Hkv in Hv.
  destruct (encryptedSecretOf o kv); [done|].
  destruct Hv as [_ ->]. apply contains_app_sep.
Qed.

Lemma formatSecretLists_slash (encryptedSecrets unencryptedSecrets : list string) :
  Forall (fun secret => Regexp.contains secret "/" = true) encryptedSecrets ->
  Forall (fun secret => Regexp.contains secret "/" = true) unencryptedSecrets ->
  ((formatSecretLists encryptedSecrets unencryptedSecrets).1 = "ALL_SECRETS"
     <-> encryptedSecrets <> [] /\ unencryptedSecrets = [])
  /\ ((formatSecretLists encryptedSecrets unencryptedSecrets).2 = "ALL_SECRETS"
      <-> encryptedSecrets = [] /\ unencryptedSecrets <> []).
Proof.
  intros Henc Hunenc. rewrite formatSecretLists_cases.
  destruct Henc as [|e es He _], Hunenc as [|u us Hu _]; cbn [fst snd].
  - split; split; first [done | by intros []].
  - split; split; first [done | by intros []].
  - split; split; first [done | by intros []].
  - pose proof (Join_contains es "," "/" e He) as Hje.
    pose proof (Join_contains us "," "/" u Hu) as Hju.
    split; split; try (by intros []).
    + intros Heq. by rewrite Heq in Hje.
    + intros Heq. by rewrite Heq in Hju.
Qed.

(** X7. In the strings that formatSecretLists makes from the two lists
    of an analysis, "ALL_SECRETS" stands for a whole category and for
    nothing else: the first string is "ALL_SECRETS" exactly when there are
    encrypted secrets and no others, the second exactly when there are
    unencrypted secrets and no encrypted one. A joined list of secrets is
    never mistaken for it, since every secret of an analysis holds a
    "/". *)
Theorem formatSecretLists_sentinel (o : ReadOperation) (kvs : list KeyValue)
    (latestProviderSeq : Z) :
  let result := analyzeSecretEncryption o kvs latestProviderSeq in
  ((formatSecretLists (EncryptedSecrets result) (UnencryptedSecrets result)).1
     = "ALL_SECRETS"
   <-> EncryptedSecrets result <> [] /\ UnencryptedSecrets result = [])
  /\ ((formatSecretLists (EncryptedSecrets result) (UnencryptedSecrets result)).2
       = "ALL_SECRETS"
     <-> EncryptedSecrets result = [] /\ UnencryptedSecrets result <> []).
Proof.
  intros result. unfold result. rewrite analyzeSecretEncryption_views. simpl.
  apply formatSecretLists_slash;
    [apply encryptedSecretOf_slash | apply unencryptedSecretOf_slash].
Qed.

(** X8. When both lists have secrets and no secret holds a comma, the
    two strings of formatSecretLists split on "," into the two lists
    again, in order. *)
Theorem formatSecretLists_round_trip (encryptedSecrets unencryptedSecrets : list string) :
  encryptedSecrets <> [] -> unencryptedSecrets <> [] ->
  Forall (fun secret => free "," secret = true) encryptedSecrets ->
  Forall (fun secret => free "," secret = true) unencryptedSecrets ->
  Split (formatSecretLists encryptedSecrets unencryptedSecrets).1 ","
    = encryptedSecrets
  /\ Split (formatSecretLists encryptedSecrets unencryptedSecrets).2 ","
      = unencryptedSecrets.
Proof.
  intros Hne Hnu He Hu. rewrite formatSecretLists_cases.
  destruct encryptedSecrets as [|e es]; [done|].
  destruct unencryptedSecrets as [|u us]; [done|].
  cbn [fst snd]. split; by apply Split_Join.
Qed.

Lemma formatSecretLists_round_trip_witness :
  Split (formatSecretLists ["default/secret1"; "kube-system/secret2"]
           ["default/secret3"]).1 ","
    = ["default/secret1"; "kube-system/secret2"].
Proof.
  refine (proj1 (formatSecretLists_round_trip
            ["default/secret1"; "kube-system/secret2"] ["default/secret3"]
            _ _ _ _)).
  - discriminate.
  - discriminate.
  - by repeat constructor.
  - by repeat constructor.
Defined.

End FormatProperties.

(** ** The recorder and the cluster *)

Section RecorderProperties.
Import K8s Recorder.

(** Every way [Record_] ends: with the cluster as it was and something
    else than a nil error, or with a nil error and the report put in the
    tracker under its namespace and name. *)
Lemma Record_inversion (c c' : Cluster) (namespace : string)
    (encryptedSecrets unencryptedSecrets : list string)
    (allSecretsUseLatestProvider : bool) (out : outcome) :
  wellFormed c ->
  Record_ c namespace encryptedSecrets unencryptedSecrets
    allSecretsUseLatestProvider = (c', out) ->
  (c' = c /\
   (out = Panicked \/
    exists cause,
      out = Returned (Some (Errorf_w "failed to get ConfigMap: %w" cause)) \/
      out = Returned (Some (Errorf_w "failed to create ConfigMap: %w" cause)) \/
      out = Returned (Some (Errorf_w "failed to update ConfigMap: %w" cause))))
  \/ (out = Returned None /\
      c' = withTracker c
             (<[(namespace, kmsReporterConfigMapName) :=
                  {| Name := kmsReporterConfigMapName; Namespace := namespace;
                     Data := Some (Views.recorded encryptedSecrets
                                     unencryptedSecrets
                                     allSecretsUseLatestProvider
                                     (default ∅ (storedData c namespace))) |}]>
                (tracker c))).
Proof.
  intros Hwf. unfold Record_, Views.recorded.
  destruct (formatSecretLists encryptedSecrets unencryptedSecrets)
    as [encryptedValue unencryptedValue]. cbn [fst snd].
  assert (Hcreate :
    createConfigMap c namespace encryptedValue unencryptedValue
      (length unencryptedSecrets =? 0)%nat allSecretsUseLatestProvider
      = (c', out) ->
    (c' = c /\
     exists cause,
       out = Returned (Some (Errorf_w "failed to create ConfigMap: %w" cause)))
    \/ (out = Returned None /\ storedData c namespace = None /\
        c' = withTracker c
               (<[(namespace, kmsReporterConfigMapName) :=
                    {| Name := kmsReporterConfigMapName; Namespace := namespace;
                       Data := Some
                         (setLatestProviderKey (length unencryptedSecrets =? 0)%nat
                            allSecretsUseLatestProvider
                            (<[unencryptedSecretsKey := unencryptedValue]>
                               (<[encryptedSecretsKey := encryptedValue]> ∅))) |}]>
                  (tracker c)))).
  { unfold createConfigMap, Create, storedData. simpl.
    destruct (createReactor c) as [cause|]; [intros [= <- <-]; eauto|].
    destruct (tracker c !! (namespace, kmsReporterConfigMapName));
      [intros [= <- <-]; eauto|].
    intros [= <- <-]. right. split; [done|]. split; [done|].
    unfold setLatestProviderKey.
    destruct (length unencryptedSecrets =? 0)%nat; [done|].
    by rewrite delete_id by by simplify_map_eq. }
  unfold Get. destruct (getReactor c) as [err|].
  - destruct (IsNotFound err); simpl.
    + intros H. apply Hcreate in H as [[-> [cause ->]]|(-> & Hnone & ->)].
      * left. split; [done|]. right. eauto.
      * right. by rewrite Hnone.
    + intros [= <- <-]. left. split; [done|]. right. eauto.
  - destruct (tracker c !! (namespace, kmsReporterConfigMapName))
      as [cm|] eqn:Hcm.
    + destruct (Hwf _ _ _ Hcm) as [Hns Hname].
      unfold updateConfigMap, Update, storedData. rewrite Hcm.
      destruct (Data cm) as [data|]; [|intros [= <- <-]; left; eauto].
      simpl. destruct (updateReactor c) as [cause|].
      { intros [= <- <-]. left. split; [done|]. right. eauto. }
      rewrite Hns, Hname, Hcm. intros [= <- <-]. by right.
    + intros H. apply Hcreate in H as [[-> [cause ->]]|(-> & Hnone & ->)].
      * left. split; [done|]. right. eauto.
      * right. by rewrite Hnone.
Qed.

Lemma recorded_idempotent (enc unenc : list string) (latest : bool)
    (previous : gmap string string) :
  Views.recorded enc unenc latest (Views.recorded enc unenc latest previous)
    = Views.recorded enc unenc latest previous.
Proof.
  unfold Views.recorded. apply map_eq. intros key.
  destruct (decide (key = encryptedByLatestProviderKey)) as [->|Hl].
  { by rewrite !setLatestProviderKey_lookup. }
  rewrite !setLatestProviderKey_lookup_ne by done.
  destruct (decide (key = unencryptedSecretsKey)) as [->|Hu];
    [by rewrite !lookup_insert_eq|].
  rewrite !(lookup_insert_ne _ unencryptedSecretsKey) by done.
  destruct (decide (key = encryptedSecretsKey)) as [->|He];
    [by rewrite !lookup_insert_eq|].
  rewrite !(lookup_insert_ne _ encryptedSecretsKey) by done.
  rewrite setLatestProviderKey_lookup_ne by done.
  by rewrite !lookup_insert_ne by done.
Qed.

(** X9. Record keeps to the report: whatever its outcome, every object
    of the tracker other than the ConfigMap kms-reporter of the given
    namespace is as it was, the reactors are as they were, and a
    well-formed tracker stays well-formed. *)
Theorem Record_confined (c c' : Cluster) (namespace : string)
    (encryptedSecrets unencryptedSecrets : list string)
    (allSecretsUseLatestProvider : bool) (out : outcome) :
  wellFormed c ->
  Record_ c namespace encryptedSecrets unencryptedSecrets
    allSecretsUseLatestProvider = (c', out) ->
  (forall ns name,
     (ns, name) <> (namespace, "kms-reporter") ->
     tracker c' !! (ns, name) = tracker c !! (ns, name))
  /\ getReactor c' = getReactor c
  /\ createReactor c' = createReactor c
  /\ updateReactor c' = updateReactor c
  /\ wellFormed c'.
Proof.
  intros Hwf Hrec.
  destruct (Record_inversion _ _ _ _ _ _ _ Hwf Hrec) as [[-> _]|[_ ->]];
    [done|].
  simpl. split; [|split; [done|split; [done|split; [done|]]]].
  - intros ns name Hne. by rewrite lookup_insert_ne.
  - intros ns name cm. simpl.
    destruct (decide ((namespace, kmsReporterConfigMapName) = (ns, name)))
      as [[= <- <-]|Hne].
    + rewrite lookup_insert_eq. by intros [= <-].
    + rewrite lookup_insert_ne by done. apply Hwf.
Qed.

Lemma Record_confined_witness :
  tracker
    (Record_ Fixtures.configCluster "kube-system" ["default/secret1"] [] true).1
    !! ("kube-system", "encryption-provider-config")
  = tracker Fixtures.configCluster !! ("kube-system", "encryption-provider-config").
Proof.
  refine (proj1 (Record_confined Fixtures.configCluster _ "kube-system"
                   ["default/secret1"] [] true
                   (Record_ Fixtures.configCluster "kube-system"
                      ["default/secret1"] [] true).2 _ _)
            "kube-system" "encryption-provider-config" _).
  - intros namespace name cm H. simpl in H.
    apply lookup_singleton_Some in H as [[= <- <-] <-]. by split.
  - reflexivity.
  - discriminate.
Defined.

(** X10. Record changes the cluster only when it returns a nil error.
    When it panics (a report whose Data is the nil map) or returns an
    error, the cluster is as it was, and the error is the failed call's
    error wrapped as "failed to get ConfigMap", "failed to create
    ConfigMap" or "failed to update ConfigMap". *)
Theorem Record_failure_unchanged (c c' : Cluster) (namespace : string)
    (encryptedSecrets unencryptedSecrets : list string)
    (allSecretsUseLatestProvider : bool) (out : outcome) :
  wellFormed c ->
  Record_ c namespace encryptedSecrets unencryptedSecrets
    allSecretsUseLatestProvider = (c', out) ->
  out <> Returned None ->
  c' = c /\
  (out = Panicked \/
   exists cause,
     out = Returned (Some (Errorf_w "failed to get ConfigMap: %w" cause)) \/
     out = Returned (Some (Errorf_w "failed to create ConfigMap: %w" cause)) \/
     out = Returned (Some (Errorf_w "failed to update ConfigMap: %w" cause))).
Proof.
  intros Hwf Hrec Hout.
  by destruct (Record_inversion _ _ _ _ _ _ _ Hwf Hrec) as [?|[-> _]].
Qed.

Lemma Record_failure_unchanged_witness :
  let c := {| tracker := ∅; getReactor := Some (StatusError false);
              createReactor := None; updateReactor := None |} in
  (Record_ c "kube-system" ["default/secret1"] [] true).1 = c.
Proof.
  intros c.
  refine (proj1 (Record_failure_unchanged c _ "kube-system"
                   ["default/secret1"] [] true
                   (Record_ c "kube-system" ["default/secret1"] [] true).2
                   _ _ _)).
  - intros namespace name cm H. subst c. simpl in H.
    by rewrite lookup_empty in H.
  - reflexivity.
  - discriminate.
Defined.

(** X11. Record is idempotent: when Get and Update are not made to fail,
    a Record that returned a nil error, called again with the same lists
    and flag, returns a nil error again and leaves the cluster exactly as
    the first call left it. *)
Theorem Record_idempotent (c c' : Cluster) (namespace : string)
    (encryptedSecrets unencryptedSecrets : list string)
    (allSecretsUseLatestProvider : bool) :
  wellFormed c ->
  getReactor c = None ->
  updateReactor c = None ->
  Record_ c namespace encryptedSecrets unencryptedSecrets
    allSecretsUseLatestProvider = (c', Returned None) ->
  Record_ c' namespace encryptedSecrets unencryptedSecrets
    allSecretsUseLatestProvider = (c', Returned None).
Proof.
  intros Hwf Hget Hupdate Hrec.
  destruct (Record_inversion _ _ _ _ _ _ _ Hwf Hrec)
    as [[_ [?|(cause & [?|[?|?]])]]|[_ ->]]; try done.
  set (previous := default ∅ (storedData c namespace)).
  unfold Record_, Get. simpl. rewrite Hget, lookup_insert_eq.
  destruct (formatSecretLists encryptedSecrets unencryptedSecrets)
    as [encryptedValue unencryptedValue] eqn:Hformat.
  unfold updateConfigMap, Update. simpl.
  rewrite Hupdate, lookup_insert_eq. simpl.
  pose proof (recorded_idempotent encryptedSecrets unencryptedSecrets
                allSecretsUseLatestProvider previous) as Hidem.
  unfold Views.recorded in Hidem |- *.
  rewrite Hformat in Hidem |- *. cbn [fst snd] in Hidem |- *.
  unfold setLatestProviderKey in Hidem at 1.
  rewrite Hidem, insert_insert_eq. done.
Qed.

Lemma Record_idempotent_witness :
  let c' := (Record_ Fixtures.emptyCluster "kube-system" ["default/secret1"]
               ["default/secret2"] true).1 in
  Record_ c' "kube-system" ["default/secret1"] ["default/secret2"] true
    = (c', Returned None).
Proof.
  intros c'.
  refine (Record_idempotent Fixtures.emptyCluster c' "kube-system"
            ["default/secret1"] ["default/secret2"] true _ _ _ _).
  - intros namespace name cm H. simpl in H. by rewrite lookup_empty in H.
  - reflexivity.
  - reflexivity.
  - reflexivity.
Defined.

(** X12. When the namespace has no report, a Record that returns a nil
    error has created the ConfigMap kms-reporter of that namespace, with
    ENCRYPTED and UNENCRYPTED set to the two strings of formatSecretLists
    and no other key, except ENCRYPTED_BY_LATEST_SEQ when the list of
    unencrypted secrets is empty. *)
Theorem Record_creates (c c' : Cluster) (namespace : string)
    (encryptedSecrets unencryptedSecrets : list string)
    (allSecretsUseLatestProvider : bool) :
  wellFormed c ->
  tracker c !! (namespace, "kms-reporter") = None ->
  Record_ c namespace encryptedSecrets unencryptedSecrets
    allSecretsUseLatestProvider = (c', Returned None) ->
  exists data,
    tracker c' !! (namespace, "kms-reporter")
      = Some {| Name := "kms-reporter"; Namespace := namespace;
                Data := Some data |} /\
    data !! "ENCRYPTED"
      = Some (formatSecretLists encryptedSecrets unencryptedSecrets).1 /\
    data !! "UNENCRYPTED"
      = Some (formatSecretLists encryptedSecrets unencryptedSecrets).2 /\
    dom data =
      if (length unencryptedSecrets =? 0)%nat
      then ({[ "ENCRYPTED"; "UNENCRYPTED"; "ENCRYPTED_BY_LATEST_SEQ" ]}
              : gset string)
      else {[ "ENCRYPTED"; "UNENCRYPTED" ]}.
Proof.
  intros Hwf Hnone Hrec.
  destruct (Record_inversion _ _ _ _ _ _ _ Hwf Hrec)
    as [[_ [?|(cause & [?|[?|?]])]]|[_ ->]]; try done.
  assert (Hprev : storedData c namespace = None)
    by (unfold storedData, kmsReporterConfigMapName; by rewrite Hnone).
  rewrite Hprev. simpl. eexists. split; [apply lookup_insert_eq|].
  unfold Views.recorded.
  change "ENCRYPTED_BY_LATEST_SEQ" with encryptedByLatestProviderKey.
  change "UNENCRYPTED" with unencryptedSecretsKey.
  change "ENCRYPTED" with encryptedSecretsKey.
  rewrite !setLatestProviderKey_lookup_ne by done.
  split; [by simplify_map_eq|]. split; [by simplify_map_eq|].
  unfold setLatestProviderKey.
  destruct (length unencryptedSecrets =? 0)%nat.
  - rewrite !dom_insert_L, dom_empty_L. set_solver.
  - rewrite dom_delete_L, !dom_insert_L, dom_empty_L.
    apply set_eq. intros key. rewrite elem_of_difference, !elem_of_union,
      !elem_of_singleton, elem_of_empty.
    split.
    + intros [[-> | [-> | ?]] _]; [by right|by left|done].
    + intros [-> | ->]; (split; [tauto|done]).
Qed.

Lemma Record_creates_witness :
  exists data,
    tracker (Record_ Fixtures.emptyCluster "kube-system" [] [] true).1
      !! ("kube-system", "kms-reporter")
      = Some {| Name := "kms-reporter"; Namespace := "kube-system";
                Data := Some data |} /\
    data !! "ENCRYPTED" = Some "" /\ data !! "UNENCRYPTED" = Some "".
Proof.
  destruct (Record_creates Fixtures.emptyCluster
              (Record_ Fixtures.emptyCluster "kube-system" [] [] true).1
              "kube-system" [] [] true)
    as (data & Hdata & Henc & Hunenc & _).
  - intros namespace name cm H. simpl in H. by rewrite lookup_empty in H.
  - reflexivity.
  - reflexivity.
  - exists data. by repeat split.
Defined.

End RecorderProperties.

(** ** The latest provider seq *)

Section ResolverProperties.
Import GoStrings Regexp Reader.







End ResolverProperties.

(** ** Read, from etcd to the report *)

Section ReadProperties.
Import K8s Recorder Reader Views.

(** X15. Read writes to the recorder's cluster only on one path: etcd
    answered a batch that is not empty, the latest provider seq was
    resolved without error, and Read returned a nil error. On every
    other path (no etcd client, an etcd error, an empty batch, a failed
    resolution, a failed or panicking Record) the cluster is as it was, so
    a report of an earlier run stays. *)
Theorem Read_writes_only_on_success
    (Unmarshal : string -> EncryptionConfiguration + error) (o : ReadOperation)
    (recorder recorder' : Cluster) (namespace : string) (out : outcome) :
  wellFormed recorder ->
  Read Unmarshal o recorder namespace = (recorder', out) ->
  recorder' <> recorder ->
  out = Returned None /\
  exists cli kvs latestProviderSeq,
    etcdCli o = Some cli /\
    etcdGet cli "/registry/secrets" = inl kvs /\
    kvs <> [] /\
    getLatestProviderSeq Unmarshal o namespace = (latestProviderSeq, None).
Proof.
  intros Hwf Hread Hchanged. unfold Read in Hread.
  change "/registry/secrets" with secretEtcdKey.
  destruct (etcdCli o) as [cli|] eqn:Hcli; [|by injection Hread as <- <-].
  destruct (etcdGet cli secretEtcdKey) as [kvs|err] eqn:Hget;
    [|by injection Hread as <- <-].
  destruct kvs as [|kv kvs]; [by injection Hread as <- <-|].
  cbn [length Nat.eqb] in Hread.
  destruct (getLatestProviderSeq Unmarshal o namespace)
    as [latestProviderSeq [err|]] eqn:Hseq; [by injection Hread as <- <-|].
  set (result := analyzeSecretEncryption o (kv :: kvs) latestProviderSeq) in *.
  destruct (Record_ recorder namespace (EncryptedSecrets result)
              (UnencryptedSecrets result)
              (AllSecretsUseLatestProvider result))
    as [c'' out'] eqn:Hrec.
  destruct (Record_inversion _ _ _ _ _ _ _ Hwf Hrec) as [[-> _]|[-> _]].
  - destruct out' as [[err|]|]; by injection Hread as <- <-.
  - injection Hread as <- <-. split; [done|].
    exists cli, (kv :: kvs), latestProviderSeq. by repeat split.
Qed.

Lemma Read_writes_only_on_success_witness :
  let o := Fixtures.readOp
             (Some (Fixtures.etcdOf
                      [{| Key := "/registry/secrets/default/s1";
                          Value := "k8s:enc:kms:v2:kmsprovider1:x" |}])) in
  let Unmarshal' :=
    fun _ : string =>
      inl (Fixtures.configOf [Fixtures.kmsOf "kmsprovider1"])
        : EncryptionConfiguration + error in
  (Reader.Read Unmarshal' o Fixtures.emptyCluster "kube-system").2
    = Returned None.
Proof.
  intros o Unmarshal'.
  refine (proj1 (Read_writes_only_on_success Unmarshal' o Fixtures.emptyCluster
            (Reader.Read Unmarshal' o Fixtures.emptyCluster "kube-system").1
            "kube-system"
            (Reader.Read Unmarshal' o Fixtures.emptyCluster "kube-system").2
            _ _ _)).
  - intros namespace name cm H. simpl in H. by rewrite lookup_empty in H.
  - reflexivity.
  - intros Heq. apply (f_equal (fun c => storedData c "kube-system")) in Heq.
    vm_compute in Heq. discriminate Heq.
Defined.

(** X16. For a provider name without metacharacters of regular
    expressions, Read returns a nil error and stores the report of the
    analysis whenever nothing fails: etcd answers a batch that is not empty, the
    ConfigMap of the encryption configuration is there with a YAML that
    parses, no reactor makes the recorder's calls fail and the namespace
    has no report, or one with data. The stored data are the data the
    report had, with the keys that Record sets for the lists and the
    flag of the analysis against the seq that the configuration gives. *)
Theorem Read_returns
    (Unmarshal : string -> EncryptionConfiguration + error)
    (o : ReadOperation) (recorder : Cluster)
    (namespace yaml : string) (cli : EtcdClientOperator)
    (kvs : list KeyValue) (cm : ConfigMap) (config : EncryptionConfiguration) :
  Regexp.literal (kmsProviderName o) = true ->
  etcdCli o = Some cli ->
  etcdGet cli "/registry/secrets" = inl kvs ->
  kvs <> [] ->
  Get (clientset o) namespace "encryption-provider-config" = inl cm ->
  mapLookup (Data cm) "encryption-provider-config.yaml" = Some yaml ->
  Unmarshal yaml = inl config ->
  wellFormed recorder ->
  getReactor recorder = None ->
  createReactor recorder = None ->
  updateReactor recorder = None ->
  (forall report,
     tracker recorder !! (namespace, "kms-reporter") = Some report ->
     Data report <> None) ->
  let result :=
    analyzeSecretEncryption o kvs (latestProviderSeqOf o config) in
  exists recorder',
    Read Unmarshal o recorder namespace = (recorder', Returned None) /\
    storedData recorder' namespace =
      Some (recorded (EncryptedSecrets result) (UnencryptedSecrets result)
              (AllSecretsUseLatestProvider result)
              (default ∅ (storedData recorder namespace))).
Proof.
  intros _ Hcli Hget Hne Hcm Hyaml Hparse Hwf Hg Hc Hu Hdata result.
  assert (Hseq : getLatestProviderSeq Unmarshal o namespace
                 = (latestProviderSeqOf o config, None))
    by by eapply getLatestProviderSeq_parsed.
  destruct (Record_returns recorder namespace (EncryptedSecrets result)
              (UnencryptedSecrets result)
              (AllSecretsUseLatestProvider result) Hwf Hg Hc Hu Hdata)
    as [recorder' Hrec].
  exists recorder'. split.
  - rewrite (Read_records Unmarshal o recorder namespace cli kvs
               (latestProviderSeqOf o config)) by done.
    cbn zeta. fold result. by rewrite Hrec.
  - by apply Record_success.
Qed.

Lemma Read_returns_witness :
  let o := Fixtures.readOp
             (Some (Fixtures.etcdOf
                      [{| Key := "/registry/secrets/default/s1";
                          Value := "k8s:enc:kms:v2:kmsprovider1:x" |}])) in
  exists recorder',
    Read (fun _ => inl (Fixtures.configOf [Fixtures.kmsOf "kmsprovider1"]))
      o Fixtures.emptyCluster "kube-system" = (recorder', Returned None).
Proof.
  intros o.
  destruct (Read_returns
              (fun _ => inl (Fixtures.configOf [Fixtures.kmsOf "kmsprovider1"]))
              o Fixtures.emptyCluster "kube-system" "yaml"
              (Fixtures.etcdOf
                 [{| Key := "/registry/secrets/default/s1";
                     Value := "k8s:enc:kms:v2:kmsprovider1:x" |}])
              [{| Key := "/registry/secrets/default/s1";
                  Value := "k8s:enc:kms:v2:kmsprovider1:x" |}]
              {| K8s.Name := "encryption-provider-config";
                 K8s.Namespace := "kube-system";
                 K8s.Data :=
                   Some {[ "encryption-provider-config.yaml" := "yaml" ]} |}
              (Fixtures.configOf [Fixtures.kmsOf "kmsprovider1"]))
    as [recorder' [Hread _]];
    try reflexivity; try discriminate.
  by exists recorder'.
Defined.

(** X17. In the report that a Read without error stores for a batch that
    is not empty, ENCRYPTED_BY_LATEST_SEQ is "true" exactly when every
    record that ParseEtcdObject accepts is encrypted and has the seq that
    getLatestProviderSeq returned. *)
Theorem Read_latest_true_iff
    (Unmarshal : string -> EncryptionConfiguration + error) (o : ReadOperation)
    (recorder recorder' : Cluster) (namespace : string)
    (cli : EtcdClientOperator) (kvs : list KeyValue) :
  wellFormed recorder ->
  etcdCli o = Some cli ->
  etcdGet cli "/registry/secrets" = inl kvs ->
  kvs <> [] ->
  Read Unmarshal o recorder namespace = (recorder', Returned None) ->
  exists data latestProviderSeq,
    getLatestProviderSeq Unmarshal o namespace = (latestProviderSeq, None) /\
    storedData recorder' namespace = Some data /\
    (data !! "ENCRYPTED_BY_LATEST_SEQ" = Some "true"
     <-> forall kv, In kv kvs -> forall encrypted secret seq,
           Utils.ParseEtcdObject (Key kv) (Value kv) (kmsProviderName o)
             = (encrypted, secret, seq, None) ->
           encrypted = true /\ seq = latestProviderSeq).
Proof.
  intros Hwf Hcli Hget Hne Hread.
  destruct (getLatestProviderSeq Unmarshal o namespace)
    as [latestProviderSeq [err|]] eqn:Hseq.
  { unfold Read in Hread. change "/registry/secrets" with secretEtcdKey in Hget.
    rewrite Hcli, Hget, Hseq in Hread. by destruct kvs. }
  rewrite (Read_records _ _ _ _ cli kvs latestProviderSeq) in Hread by done.
  cbn zeta in Hread.
  set (result := analyzeSecretEncryption o kvs latestProviderSeq) in *.
  destruct (Record_ recorder namespace (EncryptedSecrets result)
              (UnencryptedSecrets result)
              (AllSecretsUseLatestProvider result))
    as [c'' [[err|]|]] eqn:Hrec; try done.
  injection Hread as ->.
  destruct (Record_latest_key _ _ _ _ _ _ Hwf Hrec) as (data & Hdata & Hkey).
  exists data, latestProviderSeq. split; [done|]. split; [done|].
  change "ENCRYPTED_BY_LATEST_SEQ" with encryptedByLatestProviderKey.
  rewrite Hkey.
  pose proof (analyzeFrom_unencrypted_nil o latestProviderSeq kvs
                {| EncryptedSecrets := []; UnencryptedSecrets := [];
                   AllSecretsUseLatestProvider := true |}) as Hnil.
  pose proof (analyzeFrom_flag_true o latestProviderSeq kvs
                {| EncryptedSecrets := []; UnencryptedSecrets := [];
                   AllSecretsUseLatestProvider := true |}) as Hflag.
  fold (analyzeSecretEncryption o kvs latestProviderSeq) in Hnil, Hflag.
  fold result in Hnil, Hflag. simpl in Hnil, Hflag.
  split.
  - intros Htrue.
    destruct (UnencryptedSecrets result) as [|u us] eqn:Hu; [|done].
    simpl in Htrue.
    destruct (AllSecretsUseLatestProvider result) eqn:Hf; [|done].
    destruct (proj1 Hnil eq_refl) as [_ Henc].
    destruct (proj1 Hflag eq_refl) as [_ Hsame].
    intros kv Hin encrypted secret seq Hp. split; [by eapply Henc|by eapply Hsame].
  - intros Hall.
    assert (Hu : UnencryptedSecrets result = []).
    { apply Hnil. split; [done|]. intros kv Hin e s q Hp.
      by destruct (Hall kv Hin e s q Hp). }
    assert (Hf : AllSecretsUseLatestProvider result = true).
    { apply Hflag. split; [done|]. intros kv Hin e s q Hp.
      by destruct (Hall kv Hin e s q Hp). }
    by rewrite Hu, Hf.
Qed.

Lemma Read_latest_true_iff_witness :
  let kvs := [{| Key := "/registry/secrets/default/s1";
                 Value := "k8s:enc:kms:v2:kmsprovider1:x" |}] in
  let o := Fixtures.readOp (Some (Fixtures.etcdOf kvs)) in
  let Unmarshal' :=
    fun _ : string =>
      inl (Fixtures.configOf [Fixtures.kmsOf "kmsprovider1"])
        : EncryptionConfiguration + error in
  exists data,
    storedData (Reader.Read Unmarshal' o Fixtures.emptyCluster "kube-system").1
      "kube-system" = Some data.
Proof.
  intros kvs o Unmarshal'.
  destruct (Read_latest_true_iff Unmarshal' o Fixtures.emptyCluster
              (Reader.Read Unmarshal' o Fixtures.emptyCluster "kube-system").1
              "kube-system" (Fixtures.etcdOf kvs) kvs)
    as (data & seq & _ & Hdata & _).
  - intros namespace name cm H. simpl in H. by rewrite lookup_empty in H.
  - reflexivity.
  - reflexivity.
  - discriminate.
  - reflexivity.
  - by exists data.
Defined.

End ReadProperties.

(** ** The analysis against the resolved seq *)

Section Agreement.
Import GoStrings Regexp Utils Reader Views.

Lemma providerSeq_whole (name digits : string) (p : Provider)
    (kms : KMSProvider) (N : Z) :
  KMS p = Some kms ->
  Name kms = name +:+ digits ->
  digits <> EmptyString ->
  allBytes Strconv.isDigit digits = true ->
  Strconv.unsignedDecimal digits = Some N ->
  N <= 2 ^ 63 - 1 ->
  providerSeq name p = Some N.
Proof.
  intros Hkms Hname Hne Hall Hval Hfit. unfold providerSeq.
  rewrite Hkms, Hname, FindStringSubmatch_whole by done.
  assert (Hok : Strconv.Atoi digits = (N, None)) by by apply Atoi_digits.
  by rewrite Hok.
Qed.

(** X18. The reader and the parser agree on a provider. When the first
    provider of the configuration is a KMS provider named by the provider
    name followed by digits, getLatestProviderSeq resolves to the number
    N of those digits; a secret whose value is the envelope of that same
    provider then parses with seq N, and a batch made of it has the flag
    true and the secret in the encrypted list. The provider name holds
    no ":" and no metacharacter, and N fits an int. *)
Theorem analysis_agrees_with_resolver (o : ReadOperation)
    (config : EncryptionConfiguration) (p : Provider) (kms : KMSProvider)
    (others : list Provider) (names : list string) (rest : list Resource)
    (k version digits data : string) (N : Z) :
  literal (kmsProviderName o) = true ->
  free ":" (kmsProviderName o) = true ->
  free ":" version = true ->
  digits <> EmptyString ->
  allBytes Strconv.isDigit digits = true ->
  Strconv.unsignedDecimal digits = Some N ->
  N <= 2 ^ 63 - 1 ->
  Resources config =
    {| Providers := p :: others; ResourceNames := names |} :: rest ->
  KMS p = Some kms ->
  Name kms = kmsProviderName o +:+ digits ->
  (5 <= length (Split k "/"))%nat ->
  let value := "k8s:enc:kms:" +:+ version +:+ ":" +:+ kmsProviderName o
                 +:+ digits +:+ ":" +:+ data in
  latestProviderSeqOf o config = N
  /\ analyzeSecretEncryption o [{| Key := k; Value := value |}]
       (latestProviderSeqOf o config)
     = {| EncryptedSecrets := [keySecret k]; UnencryptedSecrets := [];
          AllSecretsUseLatestProvider := true |}.
Proof.
  intros _ Hname Hversion Hne Hall Hval Hfit Hconfig Hkms Hkmsname Hk value.
  assert (Hseq : latestProviderSeqOf o config = N).
  { unfold latestProviderSeqOf. rewrite scanResources_concat, Hconfig.
    cbn [map concat Providers app]. rewrite scanProviders_cons.
    by rewrite (providerSeq_whole _ digits p kms N). }
  split; [done|]. rewrite Hseq.
  unfold analyzeSecretEncryption, analyzeFrom, analyzeRecord. simpl.
  unfold value. rewrite (envelope_parse k version _ digits data N) by done.
  by rewrite Z.eqb_refl.
Qed.

Lemma analysis_agrees_with_resolver_witness :
  analyzeSecretEncryption (Fixtures.readOp None)
    [{| Key := "/registry/secrets/default/secret1";
        Value := "k8s:enc:kms:" +:+ "v2" +:+ ":" +:+ "kmsprovider" +:+ "3"
                   +:+ ":" +:+ "encrypted-data" |}]
    (latestProviderSeqOf (Fixtures.readOp None)
       (Fixtures.configOf [Fixtures.kmsOf "kmsprovider3"; Fixtures.identity]))
  = {| EncryptedSecrets := ["default/secret1"]; UnencryptedSecrets := [];
       AllSecretsUseLatestProvider := true |}.
Proof.
  refine (proj2 (analysis_agrees_with_resolver (Fixtures.readOp None)
            (Fixtures.configOf [Fixtures.kmsOf "kmsprovider3"; Fixtures.identity])
            (Fixtures.kmsOf "kmsprovider3")
            {| KMSAPIVersion := "v2"; Endpoint := "unix:///tmp/kms.sock";
               Name := "kmsprovider3" |}
            [Fixtures.identity] ["secrets"] []
            "/registry/secrets/default/secret1" "v2" "3" "encrypted-data" 3
            _ _ _ _ _ _ _ _ _ _ _));
    first [reflexivity | discriminate | simpl; lia].
Defined.

End Agreement.

(** ** The tests of the repository, on the model

    Cases of [utils_test.go], [reader_test.go] and [recorder_test.go],
    evaluated on the definitions above. *)

Section RepositoryTests.
Import Utils Reader Fixtures.

Example test_encrypted_valid :
  ParseEtcdObject "/registry/secrets/default/mysecret"
    "k8s:enc:kms:v2:kmsprovider1:encrypted-data-here" "kmsprovider"
  = (true, "default/mysecret", 1, None).
Proof. reflexivity. Qed.

Example test_encrypted_large_seq :
  ParseEtcdObject "/registry/secrets/test/large-seq"
    "k8s:enc:kms:v2:kmsprovider123:data" "kmsprovider"
  = (true, "test/large-seq", 123, None).
Proof. reflexivity. Qed.

Example test_unencrypted :
  ParseEtcdObject "/registry/secrets/default/plaintext-secret"
    "plain-text-secret-data" "kmsprovider"
  = (false, "default/plaintext-secret", 0, None).
Proof. reflexivity. Qed.

Example test_key_too_few_parts :
  errOf (ParseEtcdObject "/registry/secrets/default" "some-value" "kmsprovider")
  = Some (Errorf_s "invalid key format: %s" "/registry/secrets/default").
Proof. reflexivity. Qed.

Example test_key_empty_parts :
  ParseEtcdObject "/registry/secrets//mysecret" "some-value" "kmsprovider"
  = (false, "/mysecret", 0, None).
Proof. reflexivity. Qed.

Example test_value_too_few_colons :
  ParseEtcdObject "/registry/secrets/default/mysecret"
    "k8s:enc:kms:v2:kmsprovider1" "kmsprovider"
  = (true, "default/mysecret", 0,
     Some (Errorf_s "invalid encrypted value format: %s"
             "k8s:enc:kms:v2:kmsprovider1")).
Proof. reflexivity. Qed.

Example test_value_invalid_provider :
  ParseEtcdObject "/registry/secrets/default/mysecret"
    "k8s:enc:kms:v2:invalidprovider:data" "kmsprovider"
  = (true, "default/mysecret", 0,
     Some (Errorf_w "failed to convert seq to int: %w"
             (NumError "Atoi" "invalidprovider" Strconv.ErrSyntax))).
Proof. reflexivity. Qed.

Example test_value_empty_seq :
  ParseEtcdObject "/registry/secrets/default/mysecret"
    "k8s:enc:kms:v2:kmsprovider:data" "kmsprovider"
  = (true, "default/mysecret", 0,
     Some (Errorf_w "failed to convert seq to int: %w"
             (NumError "Atoi" "" Strconv.ErrSyntax))).
Proof. reflexivity. Qed.

Example test_key_many_slashes :
  ParseEtcdObject "/registry/secrets/namespace/secret-with-many/slashes/in/name"
    "unencrypted-data" "kmsprovider"
  = (false, "namespace/secret-with-many", 0, None).
Proof. reflexivity. Qed.

Example test_partial_prefix :
  ParseEtcdObject "/registry/secrets/default/mysecret"
    "k8s:enc:something-else:data" "kmsprovider"
  = (false, "default/mysecret", 0, None).
Proof. reflexivity. Qed.

Example test_analyze_mixed :
  analyzeSecretEncryption (readOp None)
    [{| Key := "/registry/secrets/default/secret1";
        Value := "k8s:enc:kms:v2:kmsprovider1:encrypted-data" |};
     {| Key := "/registry/secrets/kube-system/secret2";
        Value := "unencrypted-data" |};
     {| Key := "/registry/secrets/default/secret3";
        Value := "k8s:enc:kms:v2:kmsprovider1:more-encrypted-data" |}] 1
  = {| EncryptedSecrets := ["default/secret1"; "default/secret3"];
       UnencryptedSecrets := ["kube-system/secret2"];
       AllSecretsUseLatestProvider := false |}.
Proof. reflexivity. Qed.

Example test_analyze_older_provider :
  analyzeSecretEncryption (readOp None)
    [{| Key := "/registry/secrets/default/secret1";
        Value := "k8s:enc:kms:v2:kmsprovider1:encrypted-data" |}] 2
  = {| EncryptedSecrets := ["default/secret1"]; UnencryptedSecrets := [];
       AllSecretsUseLatestProvider := false |}.
Proof. reflexivity. Qed.

Example test_analyze_invalid_key_skipped :
  analyzeSecretEncryption (readOp None)
    [{| Key := "/invalid/key"; Value := "some-data" |};
     {| Key := "/registry/secrets/default/valid-secret";
        Value := "unencrypted-data" |}] 1
  = {| EncryptedSecrets := []; UnencryptedSecrets := ["default/valid-secret"];
       AllSecretsUseLatestProvider := false |}.
Proof. reflexivity. Qed.

Example test_seq_valid :
  latestProviderSeqOf (readOp None) (configOf [kmsOf "kmsprovider3"; identity]) = 3.
Proof. reflexivity. Qed.

Example test_seq_first_kms :
  latestProviderSeqOf (readOp None)
    (configOf [identity; kmsOf "kmsprovider5"; kmsOf "kmsprovider7"]) = 5.
Proof. reflexivity. Qed.

Example test_seq_identity_only :
  latestProviderSeqOf (readOp None) (configOf [identity]) = identityProviderSeq.
Proof. reflexivity. Qed.

Example test_seq_invalid_name :
  latestProviderSeqOf (readOp None) (configOf [kmsOf "invalidname"; identity])
  = identityProviderSeq.
Proof. reflexivity. Qed.

Example test_format_mixed :
  Recorder.formatSecretLists ["default/secret1"; "kube-system/secret2"]
    ["default/secret3"; "kube-system/secret4"]
  = ("default/secret1,kube-system/secret2", "default/secret3,kube-system/secret4").
Proof. reflexivity. Qed.

Example test_format_single_encrypted :
  Recorder.formatSecretLists ["default/secret1"] [] = ("ALL_SECRETS", "").
Proof. reflexivity. Qed.

Example test_format_none : Recorder.formatSecretLists [] [] = ("", "").
Proof. reflexivity. Qed.

End RepositoryTests.
